(** * A shallow embedding of mm.c (segregated free-list allocator)

    The allocator of [malloclab-handout/mm.c] is embedded as executable
    Rocq functions over an explicit machine state: a word-addressed memory
    (every access of the program is a 4-byte [unsigned int] access), the
    global [heap_listp], and the break pointer of the memory system.

    Sizes are [size_t] values of a 32-bit build (the program stores
    pointers in [unsigned int] words), modelled as [Z] with the wrap-around
    written out by [w32]; [int] values go through [s32]. *)

From Stdlib Require Import ZArith Lia Bool List.
From stdpp Require Import base option gmap.

Local Open Scope Z_scope.

(** ** Machine words *)

Definition w32 (x : Z) : Z := x mod 2 ^ 32.

(** Conversion of an unsigned 32-bit word to [int]. *)
Definition s32 (x : Z) : Z :=
  if w32 x <? 2 ^ 31 then w32 x else w32 x - 2 ^ 32.

(** ** Constants and macros *)

Definition ALIGNMENT : Z := 8.
Definition WSIZE : Z := 4.
Definition DSIZE : Z := 8.
Definition CHUNKSIZE : Z := Z.shiftl 1 12.
Definition MAXCLASS : Z := 15.
Definition NULL : Z := 0.

(** [ALIGN(size) = (size + (ALIGNMENT-1)) & ~0x7] on [size_t]. *)
Definition ALIGN (size : Z) : Z :=
  Z.land (w32 (size + (ALIGNMENT - 1))) (Z.lnot 7).

Definition MAX (x y : Z) : Z := if y <? x then x else y.

Definition PACK (size alloc : Z) : Z := Z.lor size alloc.

(** ** Results of possibly non-terminating or faulting code

    The two list walks of the program ([insert_list], [find_fit]) follow
    [succ] pointers read from memory and are embedded with fuel;
    [NoFuel] is the outcome of a walk that did not finish.  [Segv] is the
    outcome of [memcpy] to the null pointer. *)

Inductive result (A : Type) : Type :=
| Ret (a : A)
| NoFuel
| Segv.

Arguments Ret {A} a.
Arguments NoFuel {A}.
Arguments Segv {A}.

Definition result_bind {A B : Type} (k : A -> result B) (r : result A) : result B :=
  match r with
  | Ret a => k a
  | NoFuel => NoFuel
  | Segv => Segv
  end.

(** stdpp's [x ← r; k] notation for sequencing. *)
#[global] Instance result_mbind : MBind result := @result_bind.

(** ** Machine state *)

Record state : Type := mkState {
  mem : gmap Z Z;        (* word at each address *)
  heap_listp : Z;        (* the global of mm.c *)
  mem_brk : Z;           (* first byte after the heap *)
  mem_max_addr : Z       (* end of the region the heap may grow into *)
}.

Definition set_mem (st : state) (m : gmap Z Z) : state :=
  mkState m (heap_listp st) (mem_brk st) (mem_max_addr st).

(** [GET(p)]: one [unsigned int] load; a word that was never written
    reads as 0. *)
Definition GET (m : gmap Z Z) (p : Z) : Z := w32 (default 0 (m !! p)).

(** [PUT(p, val)] and [PUT_P(p, p_to)]: one [unsigned int] store. *)
Definition PUT (m : gmap Z Z) (p val : Z) : gmap Z Z := <[p := w32 val]> m.

Definition GET_SIZE (m : gmap Z Z) (p : Z) : Z := Z.land (GET m p) (Z.lnot 7).
Definition GET_ALLOC (m : gmap Z Z) (p : Z) : Z := Z.land (GET m p) 1.

Definition HDRP (bp : Z) : Z := bp - WSIZE.
Definition FTRP (m : gmap Z Z) (bp : Z) : Z := bp + GET_SIZE m (HDRP bp) - DSIZE.

Definition NEXT_BLKP (m : gmap Z Z) (bp : Z) : Z := bp + GET_SIZE m (bp - WSIZE).
Definition PREV_BLKP (m : gmap Z Z) (bp : Z) : Z := bp - GET_SIZE m (bp - DSIZE).

Definition PRED_PTR (bp : Z) : Z := bp.
Definition SUCC_PTR (bp : Z) : Z := bp + WSIZE.

Definition PRED (m : gmap Z Z) (bp : Z) : Z := GET m (PRED_PTR bp).
Definition SUCC (m : gmap Z Z) (bp : Z) : Z := GET m (SUCC_PTR bp).

(** ** The memory system

    Modelled from the spec: [mem_sbrk] of memlib.c, which is not part of
    the sources.  It returns the address of a new region of exactly [incr]
    bytes right after the previously returned one, and fails, leaving
    everything untouched, when the resource is exhausted. *)
Definition mem_sbrk (st : state) (incr : Z) : option (state * Z) :=
  if mem_brk st + incr <=? mem_max_addr st
  then Some (mkState (mem st) (heap_listp st) (mem_brk st + incr) (mem_max_addr st),
             mem_brk st)
  else None.

(** ** Size classes

    [while ((size > 1) && (class_idx < MAXCLASS - 1)) { size >>= 1; class_idx++; }]
    The loop runs at most [MAXCLASS - 1] times; it returns the shifted
    size together with the index. *)
Fixpoint class_loop (n : nat) (size class_idx : Z) : Z * Z :=
  match n with
  | O => (size, class_idx)
  | S n' =>
      if (1 <? size) && (class_idx <? MAXCLASS - 1)
      then class_loop n' (Z.shiftr size 1) (class_idx + 1)
      else (size, class_idx)
  end.

Definition class_of (size : Z) : Z * Z := class_loop 14 size 0.

(** ** insert_list *)

(** [while (current_ptr != NULL && (size > GET_SIZE(HDRP(current_ptr))))] *)
Fixpoint search_pos (fuel : nat) (m : gmap Z Z) (size last_ptr current_ptr : Z)
  : result (Z * Z) :=
  match fuel with
  | O => NoFuel
  | S fuel' =>
      if negb (current_ptr =? NULL) && (GET_SIZE m (HDRP current_ptr) <? size)
      then search_pos fuel' m size current_ptr (SUCC m current_ptr)
      else Ret (last_ptr, current_ptr)
  end.

Definition link_in (m : gmap Z Z) (class_ptr bp last_ptr current_ptr : Z) : gmap Z Z :=
  let m1 := PUT m (PRED_PTR bp) last_ptr in
  let m2 := PUT m1 (SUCC_PTR bp) current_ptr in
  let m3 := if negb (current_ptr =? NULL) then PUT m2 (PRED_PTR current_ptr) bp else m2 in
  if negb (last_ptr =? NULL) then PUT m3 (SUCC_PTR last_ptr) bp
  else PUT m3 class_ptr bp.

Definition insert_list (fuel : nat) (st : state) (bp size : Z) : result state :=
  let '(size, class_idx) := class_of size in
  let class_ptr := heap_listp st + class_idx * WSIZE in
  let current_ptr := GET (mem st) class_ptr in
  '(last_ptr, current_ptr) ← search_pos fuel (mem st) size NULL current_ptr;
  Ret (set_mem st (link_in (mem st) class_ptr bp last_ptr current_ptr)).

(** ** remove_list *)

Definition remove_list (st : state) (bp : Z) : state :=
  let m := mem st in
  let size := GET_SIZE m (HDRP bp) in
  let '(_, class_idx) := class_of size in
  let class_ptr := heap_listp st + class_idx * WSIZE in
  let m1 := if negb (PRED m bp =? NULL)
            then PUT m (SUCC_PTR (PRED m bp)) (SUCC m bp)
            else PUT m class_ptr (SUCC m bp) in
  let m2 := if negb (SUCC m1 bp =? NULL)
            then PUT m1 (PRED_PTR (SUCC m1 bp)) (PRED m1 bp)
            else m1 in
  set_mem st m2.

(** ** coalesce *)

Definition coalesce (fuel : nat) (st : state) (bp size : Z) : result (state * Z) :=
  let m := mem st in
  let prev_alloc := GET_ALLOC m (HDRP (PREV_BLKP m bp)) in
  let next_alloc := GET_ALLOC m (HDRP (NEXT_BLKP m bp)) in
  let '(st1, bp1, size1) :=
    if negb (prev_alloc =? 0) && negb (next_alloc =? 0) then (st, bp, size)
    else if negb (prev_alloc =? 0) && (next_alloc =? 0) then
      let st1 := remove_list st (NEXT_BLKP m bp) in
      let size := w32 (size + GET_SIZE (mem st1) (HDRP (NEXT_BLKP (mem st1) bp))) in
      let m2 := PUT (mem st1) (HDRP bp) (PACK size 0) in
      let m3 := PUT m2 (FTRP m2 bp) (PACK size 0) in
      (set_mem st1 m3, bp, size)
    else if (prev_alloc =? 0) && negb (next_alloc =? 0) then
      let st1 := remove_list st (PREV_BLKP m bp) in
      let size := w32 (size + GET_SIZE (mem st1) (HDRP (PREV_BLKP (mem st1) bp))) in
      let m2 := PUT (mem st1) (FTRP (mem st1) bp) (PACK size 0) in
      let m3 := PUT m2 (HDRP (PREV_BLKP m2 bp)) (PACK size 0) in
      (set_mem st1 m3, PREV_BLKP m3 bp, size)
    else
      let st1 := remove_list st (PREV_BLKP m bp) in
      let st2 := remove_list st1 (NEXT_BLKP (mem st1) bp) in
      let m2 := mem st2 in
      let size := w32 (size + w32 (GET_SIZE m2 (HDRP (PREV_BLKP m2 bp))
                                   + GET_SIZE m2 (HDRP (NEXT_BLKP m2 bp)))) in
      let m3 := PUT m2 (HDRP (PREV_BLKP m2 bp)) (PACK size 0) in
      let m4 := PUT m3 (FTRP m3 (NEXT_BLKP m3 bp)) (PACK size 0) in
      (set_mem st2 m4, PREV_BLKP m4 bp, size)
  in
  st2 ← insert_list fuel st1 bp1 size1;
  Ret (st2, bp1).

(** ** extend_heap *)

Definition extend_heap (fuel : nat) (st : state) (size : Z) : result (state * Z) :=
  let size := ALIGN size in
  match mem_sbrk st size with
  | None => Ret (st, NULL)
  | Some (st1, bp) =>
      let m1 := PUT (mem st1) (HDRP bp) (PACK size 0) in
      let m2 := PUT m1 (FTRP m1 bp) (PACK size 0) in
      let m3 := PUT m2 (HDRP (NEXT_BLKP m2 bp)) (PACK 0 1) in
      coalesce fuel (set_mem st1 m3) bp size
  end.

(** ** place *)

Definition place (fuel : nat) (st : state) (bp asize : Z) : result (state * Z) :=
  let csize := GET_SIZE (mem st) (HDRP bp) in
  let remain := w32 (csize - asize) in
  let st0 := remove_list st bp in
  let m0 := mem st0 in
  if remain <? 2 * DSIZE then
    let m1 := PUT m0 (HDRP bp) (PACK csize 1) in
    let m2 := PUT m1 (FTRP m1 bp) (PACK csize 1) in
    Ret (set_mem st0 m2, bp)
  else if asize <? 96 then
    let m1 := PUT m0 (HDRP bp) (PACK asize 1) in
    let m2 := PUT m1 (FTRP m1 bp) (PACK asize 1) in
    let m3 := PUT m2 (HDRP (NEXT_BLKP m2 bp)) (PACK remain 0) in
    let m4 := PUT m3 (FTRP m3 (NEXT_BLKP m3 bp)) (PACK remain 0) in
    st1 ← insert_list fuel (set_mem st0 m4) (NEXT_BLKP m4 bp) remain;
    Ret (st1, bp)
  else
    let m1 := PUT m0 (HDRP bp) (PACK remain 0) in
    let m2 := PUT m1 (FTRP m1 bp) (PACK remain 0) in
    st1 ← insert_list fuel (set_mem st0 m2) bp remain;
    let bp' := NEXT_BLKP (mem st1) bp in
    let m3 := PUT (mem st1) (HDRP bp') (PACK asize 1) in
    let m4 := PUT m3 (FTRP m3 bp') (PACK asize 1) in
    Ret (set_mem st1 m4, bp').

(** ** find_fit *)

(** [while ((bp != NULL) && (asize > GET_SIZE(HDRP(bp)))) bp = SUCC(bp);] *)
Fixpoint fit_in_list (fuel : nat) (m : gmap Z Z) (asize bp : Z) : result Z :=
  match fuel with
  | O => NoFuel
  | S fuel' =>
      if negb (bp =? NULL) && (GET_SIZE m (HDRP bp) <? asize)
      then fit_in_list fuel' m asize (SUCC m bp)
      else Ret bp
  end.

(** The outer loop, [while (class_idx < MAXCLASS)], one unfolding per
    class. *)
Fixpoint find_fit_loop (n : nat) (fuel : nat) (st : state) (asize size class_idx : Z)
  : result Z :=
  match n with
  | O => Ret NULL
  | S n' =>
      if class_idx <? MAXCLASS then
        if (size <=? 1)
           && negb (GET (mem st) (heap_listp st + class_idx * WSIZE) =? NULL)
        then
          bp ← fit_in_list fuel (mem st) asize
                       (GET (mem st) (heap_listp st + class_idx * WSIZE));
          if negb (bp =? NULL) then Ret bp
          else find_fit_loop n' fuel st asize (Z.shiftr size 1) (class_idx + 1)
        else find_fit_loop n' fuel st asize (Z.shiftr size 1) (class_idx + 1)
      else Ret NULL
  end.

Definition find_fit (fuel : nat) (st : state) (asize : Z) : result Z :=
  find_fit_loop 15 fuel st asize asize 0.

(** ** mm_init *)

Fixpoint clear_classes (n : nat) (m : gmap Z Z) (base i : Z) : gmap Z Z :=
  match n with
  | O => m
  | S n' => clear_classes n' (PUT m (base + i * WSIZE) NULL) base (i + 1)
  end.

(** Returns the [int] result, 0 or -1. *)
Definition mm_init (fuel : nat) (st : state) : result (state * Z) :=
  match mem_sbrk st ((3 + MAXCLASS) * WSIZE) with
  | None => Ret (mkState (mem st) (w32 (-1)) (mem_brk st) (mem_max_addr st), -1)
  | Some (st1, p) =>
      let st2 := mkState (mem st1) p (mem_brk st1) (mem_max_addr st1) in
      let m1 := clear_classes 15 (mem st2) p 0 in
      let m2 := PUT m1 (p + MAXCLASS * WSIZE) (PACK DSIZE 1) in
      let m3 := PUT m2 (p + (1 + MAXCLASS) * WSIZE) (PACK DSIZE 1) in
      let m4 := PUT m3 (p + (2 + MAXCLASS) * WSIZE) (PACK 0 1) in
      '(st3, bp) ← extend_heap fuel (set_mem st2 m4) CHUNKSIZE;
      if bp =? NULL then Ret (st3, -1) else Ret (st3, 0)
  end.

(** ** mm_malloc *)

(** The size adjustment shared by [mm_malloc] and [mm_realloc]. *)
Definition adjust (size : Z) : Z :=
  if size <=? DSIZE then 2 * DSIZE else ALIGN (w32 (size + DSIZE)).

Definition mm_malloc (fuel : nat) (st : state) (size : Z) : result (state * Z) :=
  if size =? 0 then Ret (st, NULL)
  else
    let asize := adjust size in
    bp ← find_fit fuel st asize;
    if negb (bp =? NULL) then place fuel st bp asize
    else
      let extendsize := MAX asize CHUNKSIZE in
      '(st1, bp) ← extend_heap fuel st extendsize;
      if bp =? NULL then Ret (st1, NULL)
      else place fuel st1 bp asize.

(** ** mm_free *)

Definition mm_free (fuel : nat) (st : state) (bp : Z) : result state :=
  let size := GET_SIZE (mem st) (HDRP bp) in
  let m1 := PUT (mem st) (HDRP bp) (PACK size 0) in
  let m2 := PUT m1 (FTRP m1 bp) (PACK size 0) in
  '(st1, _) ← coalesce fuel (set_mem st m2) bp size;
  Ret st1.

(** ** mm_realloc *)

(** [memcpy(dst, src, n)] for [n] a multiple of the word size: [words]
    words are copied from the source as it was before the call. *)
Fixpoint copy_words (words : nat) (m0 m : gmap Z Z) (dst src : Z) : gmap Z Z :=
  match words with
  | O => m
  | S k => copy_words k m0 (PUT m dst (GET m0 src)) (dst + WSIZE) (src + WSIZE)
  end.

Definition memcpy (m : gmap Z Z) (dst src n : Z) : result (gmap Z Z) :=
  if dst =? NULL then Segv
  else Ret (copy_words (Z.to_nat (n / WSIZE)) m m dst src).

Definition mm_realloc (fuel : nat) (st : state) (ptr size : Z) : result (state * Z) :=
  if size =? 0 then Ret (st, NULL)
  else
    let size := adjust size in
    let m := mem st in
    let remain := s32 (GET_SIZE m (HDRP ptr) - size) in
    if 0 <=? remain then Ret (st, ptr)
    else if (GET_ALLOC m (HDRP (NEXT_BLKP m ptr)) =? 0)
            || (GET_SIZE m (HDRP (NEXT_BLKP m ptr)) =? 0) then
      let remain := s32 (GET_SIZE m (HDRP ptr)
                         + GET_SIZE m (HDRP (NEXT_BLKP m ptr)) - size) in
      '(st1, remain, failed) ←
        if remain <? 0 then
          '(st1, bp) ← extend_heap fuel st (w32 (MAX (- remain) CHUNKSIZE));
          if bp =? NULL then Ret (st1, remain, true)
          else Ret (st1, s32 (remain + MAX (- remain) CHUNKSIZE), false)
        else Ret (st, remain, false);
      if (failed : bool) then Ret (st1, NULL)
      else
        let st2 := remove_list st1 (NEXT_BLKP (mem st1) ptr) in
        let m1 := PUT (mem st2) (HDRP ptr) (PACK (w32 (size + remain)) 1) in
        let m2 := PUT m1 (FTRP m1 ptr) (PACK (w32 (size + remain)) 1) in
        Ret (set_mem st2 m2, ptr)
    else
      '(st1, newptr) ← mm_malloc fuel st size;
      m1 ← memcpy (mem st1) newptr ptr (GET_SIZE (mem st1) (HDRP ptr));
      st2 ← mm_free fuel (set_mem st1 m1) ptr;
      Ret (st2, newptr).

(** * Observing the heap *)

(** The blocks on a free list, following [succ] from [bp]. *)
Fixpoint list_nodes (fuel : nat) (m : gmap Z Z) (bp : Z) : list Z :=
  match fuel with
  | O => []
  | S fuel' => if bp =? NULL then [] else bp :: list_nodes fuel' m (SUCC m bp)
  end.

(** The list of size class [i]. *)
Definition bucket (fuel : nat) (st : state) (i : Z) : list Z :=
  list_nodes fuel (mem st) (GET (mem st) (heap_listp st + i * WSIZE)).

(** The size recorded in the header of each block of a list. *)
Definition sizes_of (st : state) (l : list Z) : list Z :=
  map (fun bp => GET_SIZE (mem st) (HDRP bp)) l.

(** Pointers that a walk along [succ] from [h] visits. *)
Inductive reaches (m : gmap Z Z) : Z -> Z -> Prop :=
| reaches_here h : h <> NULL -> reaches m h h
| reaches_succ h n : h <> NULL -> reaches m (SUCC m h) n -> reaches m h n.

(** [chain m h l]: following [succ] from [h] visits exactly the blocks
    [l] and then reaches the null pointer. *)
Fixpoint chain (m : gmap Z Z) (h : Z) (l : list Z) : Prop :=
  match l with
  | [] => h = NULL
  | n :: l' => h = n /\ n <> NULL /\ chain m (SUCC m n) l'
  end.

Definition aligned8 (p : Z) : Prop := p mod 8 = 0.

(** The block at [bp] carries [size | alloc] in its header and in the
    footer that this size puts at [bp + size - DSIZE]. *)
Definition tagged (m : gmap Z Z) (bp size alloc : Z) : Prop :=
  GET m (HDRP bp) = PACK size alloc /\ GET m (bp + size - DSIZE) = PACK size alloc.

(** Every block on every free list is 8-byte aligned. *)
Definition lists_aligned (st : state) : Prop :=
  forall i n, 0 <= i < MAXCLASS ->
    reaches (mem st) (GET (mem st) (heap_listp st + i * WSIZE)) n -> aligned8 n.

(** The size classes, and the blocks on all free lists. *)
Definition classes : list Z := [0; 1; 2; 3; 4; 5; 6; 7; 8; 9; 10; 11; 12; 13; 14].

Definition free_blocks (fuel : nat) (st : state) : list Z :=
  flat_map (bucket fuel st) classes.

(** What [coalesce] inspects: the tags of the two physical neighbours. *)
Definition prev_allocated (st : state) (bp : Z) : bool :=
  negb (GET_ALLOC (mem st) (HDRP (PREV_BLKP (mem st) bp)) =? 0).
Definition next_allocated (st : state) (bp : Z) : bool :=
  negb (GET_ALLOC (mem st) (HDRP (NEXT_BLKP (mem st) bp)) =? 0).

(** No block of a free list has a free physical neighbour. *)
Definition no_adjacent_free (fuel : nat) (st : state) : bool :=
  forallb (fun bp => prev_allocated st bp && next_allocated st bp)
          (free_blocks fuel st).

Fixpoint ascending (l : list Z) : bool :=
  match l with
  | [] => true
  | x :: l' =>
      match l' with
      | [] => true
      | y :: _ => (x <=? y) && ascending l'
      end
  end.

(** Every free list is in ascending order of block size. *)
Definition lists_sorted (fuel : nat) (st : state) : bool :=
  forallb (fun i => ascending (sizes_of st (bucket fuel st i))) classes.

(** ** Concrete runs

    A heap region that starts at address 1000; [fresh] has room for
    99000 bytes, [cramped] for exactly what [mm_init] takes. *)
Definition fresh : state := mkState ∅ 0 1000 100000.
Definition cramped : state := mkState ∅ 0 1000 5168.

Definition state_of {A : Type} (r : result (state * A)) : state :=
  match r with Ret (st, _) => st | _ => fresh end.
Definition value_of {A : Type} (d : A) (r : result (state * A)) : A :=
  match r with Ret (_, a) => a | _ => d end.

(** [init(); p = malloc(8); n = malloc(8); x = malloc(8); y = malloc(4056);
    free(n);] *)
Definition run_before_realloc : result state :=
  '(st, _) ← mm_init 64 fresh;
  '(st, p) ← mm_malloc 64 st 8;
  '(st, n) ← mm_malloc 64 st 8;
  '(st, x) ← mm_malloc 64 st 8;
  '(st, y) ← mm_malloc 64 st 4056;
  mm_free 64 st 1088.

(** [... p = realloc(p, 100); free(y);] *)
Definition run_realloc_then_free : result state :=
  st ← run_before_realloc;
  '(st, p) ← mm_realloc 64 st 1072 100;
  mm_free 64 st 5200.

(** [init(); a = malloc(8); b = malloc(8); c = malloc(16); d = malloc(8);
    free(a);] and then [free(c);] *)
Definition run_two_frees_first : result state :=
  '(st, _) ← mm_init 64 fresh;
  '(st, a) ← mm_malloc 64 st 8;
  '(st, b) ← mm_malloc 64 st 8;
  '(st, c) ← mm_malloc 64 st 16;
  '(st, d) ← mm_malloc 64 st 8;
  mm_free 64 st 1072.

Definition run_two_frees : result state :=
  st ← run_two_frees_first;
  mm_free 64 st 1104.

(** [init(); a = malloc(40000); free(a);] *)
Definition run_large_free : result state :=
  '(st, _) ← mm_init 64 fresh;
  '(st, a) ← mm_malloc 64 st 40000;
  mm_free 64 st a.

(** [init(); p = malloc(8); q = malloc(8);] in a region that cannot grow. *)
Definition run_exhausted : result (state * Z) :=
  '(st, _) ← mm_init 64 cramped;
  '(st, p) ← mm_malloc 64 st 8;
  mm_malloc 64 st 8.

Definition unwrap (r : result state) : state :=
  match r with Ret st => st | _ => fresh end.

(** [init();] and [init(); p = malloc(8);] *)
Definition heap_after_init : state := state_of (mm_init 64 fresh).
Definition heap_one_block : state :=
  state_of ('(st, _) ← mm_init 64 fresh; mm_malloc 64 st 8).

(** A decision procedure for [lists_aligned]: every list ends within the
    fuel and holds aligned blocks only. *)
Definition lists_aligned_check (fuel : nat) (st : state) : bool :=
  forallb (fun i => (length (bucket fuel st i) <? fuel)%nat
                    && forallb (fun n => n mod 8 =? 0) (bucket fuel st i))
          classes.

(** The part of the state that only the memory system moves: the class
    table and the limit stay, the break moves up by multiples of 8. *)
Definition heap_grows (st st' : state) : Prop :=
  heap_listp st' = heap_listp st /\
  mem_max_addr st' = mem_max_addr st /\
  mem_brk st <= mem_brk st' /\
  (mem_brk st' - mem_brk st) mod 8 = 0.

(** [init(); p = malloc(8);] in a region that cannot grow. *)
Definition heap_cramped_one_block : state :=
  state_of ('(st, _) ← mm_init 64 cramped; mm_malloc 64 st 8).

(** [init(); p = malloc(4088);]: the one block of the heap is allocated. *)
Definition heap_full : state :=
  state_of ('(st, _) ← mm_init 64 fresh; mm_malloc 64 st 4088).

(** * Arithmetic of words and tags *)

Ltac dlia := unfold w32 in *; change (2 ^ 32) with 4294967296 in *;
  change (2 ^ 31) with 2147483648 in *; Z.div_mod_to_equations; lia.

Lemma land_lnot7 x : Z.land x (Z.lnot 7) = 8 * (x / 8).
Proof.
  change (Z.lnot 7) with (Z.lnot (Z.ones 3)).
  rewrite <- Z.ldiff_land, Z.ldiff_ones_r by lia.
  rewrite Z.shiftr_div_pow2, Z.shiftl_mul_pow2 by lia. change (2^3) with 8. lia.
Qed.

Lemma land_1 x : Z.land x 1 = x mod 2.
Proof. change 1 with (Z.ones 1). rewrite Z.land_ones by lia. reflexivity. Qed.

Lemma lor_even_1 x : 0 <= x -> x mod 2 = 0 -> Z.lor x 1 = x + 1.
Proof.
  intros H0 H. destruct x as [|p|p]; [reflexivity| |lia].
  destruct p; [exfalso; rewrite Pos2Z.inj_xI in H; dlia | reflexivity | discriminate].
Qed.

Lemma w32_range x : 0 <= w32 x < 2 ^ 32.
Proof. dlia. Qed.

Lemma w32_id x : 0 <= x < 2 ^ 32 -> w32 x = x.
Proof. intros. dlia. Qed.

Lemma w32_idem x : w32 (w32 x) = w32 x.
Proof. apply w32_id, w32_range. Qed.

Lemma GET_range m p : 0 <= GET m p < 2 ^ 32.
Proof. apply w32_range. Qed.

Lemma GET_PUT_eq m p v : GET (PUT m p v) p = w32 v.
Proof. unfold GET, PUT. rewrite lookup_insert_eq. simpl. apply w32_idem. Qed.

Lemma GET_PUT_ne m p q v : p <> q -> GET (PUT m p v) q = GET m q.
Proof. intros. unfold GET, PUT. rewrite lookup_insert_ne by done. done. Qed.

Lemma GET_SIZE_eq m p : GET_SIZE m p = 8 * (GET m p / 8).
Proof. apply land_lnot7. Qed.

Lemma GET_SIZE_range m p : 0 <= GET_SIZE m p < 2 ^ 32.
Proof. rewrite GET_SIZE_eq. pose proof (GET_range m p). dlia. Qed.

Lemma GET_SIZE_mod8 m p : GET_SIZE m p mod 8 = 0.
Proof. rewrite GET_SIZE_eq. dlia. Qed.

Lemma ALIGN_eq x : ALIGN x = 8 * (w32 (x + 7) / 8).
Proof. apply land_lnot7. Qed.

Lemma adjust_range size : 16 <= adjust size \/ adjust size = ALIGN (w32 (size + DSIZE)).
Proof. unfold adjust. destruct (size <=? DSIZE); [left; unfold DSIZE; lia | by right]. Qed.

Lemma adjust_nonneg size : 0 <= adjust size < 2 ^ 32.
Proof.
  unfold adjust. destruct (size <=? DSIZE); [unfold DSIZE; lia|].
  rewrite ALIGN_eq. dlia.
Qed.

Lemma adjust_mod8 size : adjust size mod 8 = 0.
Proof.
  unfold adjust. destruct (size <=? DSIZE); [reflexivity|].
  rewrite ALIGN_eq. dlia.
Qed.

(** * Degenerate requests (C6) *)

(** C6: degenerate requests are no-ops.  [mm_malloc(0)] returns the null
    pointer and leaves the whole state as it was; [mm_realloc(ptr, 0)]
    returns the null pointer and leaves the whole state as it was, so
    [ptr] is not freed and its block keeps its allocated tag. *)
Theorem degenerate_requests_are_noops (fuel : nat) (st : state) (ptr : Z) :
  mm_malloc fuel st 0 = Ret (st, NULL) /\
  mm_realloc fuel st ptr 0 = Ret (st, NULL).
Proof. split; reflexivity. Qed.

(** * Reallocation that fits (C8) *)

(** C8: when the adjusted new size is at most the size of the block of
    [p] (a block of less than 2^31 bytes, the range of the [int] that
    holds the difference), [mm_realloc(p, newSize)] returns [p] and the
    state - memory, lists, break - is the one it was called in. *)
Theorem realloc_within_block_is_identity (fuel : nat) (st : state) (p newSize : Z) :
  0 < newSize ->
  adjust newSize <= GET_SIZE (mem st) (HDRP p) ->
  GET_SIZE (mem st) (HDRP p) < 2 ^ 31 ->
  mm_realloc fuel st p newSize = Ret (st, p).
Proof.
  intros Hpos Hfit Hint. unfold mm_realloc.
  destruct (newSize =? 0) eqn:E; [lia|].
  pose proof (adjust_nonneg newSize) as Ha.
  assert (Hs : s32 (GET_SIZE (mem st) (HDRP p) - adjust newSize)
               = GET_SIZE (mem st) (HDRP p) - adjust newSize).
  { unfold s32. rewrite w32_id by (change (2 ^ 31) with 2147483648 in *;
      change (2 ^ 32) with 4294967296 in *; lia).
    destruct (_ <? _) eqn:E2; [reflexivity | lia]. }
  cbv zeta. rewrite Hs.
  destruct (0 <=? _) eqn:E3; [reflexivity | lia].
Qed.

(** * Size classes *)

Lemma class_loop_shifted n : forall size idx s i,
  class_loop n size idx = (s, i) ->
  i < MAXCLASS - 1 -> i < idx + Z.of_nat n -> s <= 1.
Proof.
  induction n as [|n IH]; intros size idx s i H Hi Hn; simpl in H.
  - inversion H; subst. lia.
  - destruct ((1 <? size) && (idx <? MAXCLASS - 1)) eqn:E.
    + apply (IH _ _ _ _ H Hi). lia.
    + inversion H; subst. apply andb_false_iff in E as [E|E]; lia.
Qed.

Lemma class_loop_index n : forall size idx,
  idx <= snd (class_loop n size idx) <= idx + Z.of_nat n.
Proof.
  induction n as [|n IH]; intros size idx; simpl; [lia|].
  destruct ((1 <? size) && (idx <? MAXCLASS - 1)); simpl; [|lia].
  specialize (IH (Z.shiftr size 1) (idx + 1)). lia.
Qed.

Lemma class_of_index size : 0 <= snd (class_of size) < MAXCLASS.
Proof. pose proof (class_loop_index 14 size 0). unfold class_of, MAXCLASS. lia. Qed.

(** * Large requests (C10) *)

Lemma find_fit_loop_large n : forall fuel st asize size idx,
  2 ^ Z.of_nat n <= size ->
  find_fit_loop n fuel st asize size idx = Ret NULL.
Proof.
  induction n as [|n IH]; intros fuel st asize size idx H; [reflexivity|].
  cbn [find_fit_loop]. destruct (idx <? MAXCLASS); [|reflexivity].
  rewrite Nat2Z.inj_succ, Z.pow_succ_r in H by lia.
  assert (0 < 2 ^ Z.of_nat n) by (apply Z.pow_pos_nonneg; lia).
  destruct (size <=? 1) eqn:E; [lia|]. cbn [andb].
  apply IH. rewrite Z.shiftr_div_pow2 by lia. change (2 ^ 1) with 2.
  Z.div_mod_to_equations; lia.
Qed.


(** * Insertion into a free list (C9) *)

Lemma search_pos_stops fuel m size last cur :
  (0 < fuel)%nat -> size <= 1 ->
  (cur <> NULL -> 0 < GET_SIZE m (HDRP cur)) ->
  search_pos fuel m size last cur = Ret (last, cur).
Proof.
  intros Hf Hs Hc. destruct fuel as [|fuel]; [lia|]. cbn [search_pos].
  destruct (cur =? NULL) eqn:E; [reflexivity|]. cbn [negb andb].
  destruct (GET_SIZE m (HDRP cur) <? size) eqn:E2; [|reflexivity].
  assert (cur <> NULL) by lia. specialize (Hc H). lia.
Qed.

(** C9: a block whose class index is below [MAXCLASS - 1] is spliced in
    at the head of its list, before every block already there, whatever
    their sizes: the size left by the class loop is at most 1, and the
    position search compares that against the full size of the first
    block.  After the call the class slot holds [bp], [bp] has no
    predecessor, its successor is the old head, and the old head (if any)
    has [bp] as predecessor. *)
Theorem insert_list_small_goes_first (fuel : nat) (st : state) (bp size : Z) :
  let class_ptr := heap_listp st + snd (class_of size) * WSIZE in
  let head := GET (mem st) class_ptr in
  (0 < fuel)%nat ->
  snd (class_of size) < MAXCLASS - 1 ->
  (head <> NULL -> 0 < GET_SIZE (mem st) (HDRP head)) ->
  0 <= bp < 2 ^ 32 ->
  class_ptr <> bp -> class_ptr <> bp + WSIZE ->
  head <> bp -> head <> bp + WSIZE -> head <> class_ptr ->
  fst (class_of size) <= 1 /\
  exists st',
    insert_list fuel st bp size = Ret st' /\
    mem st' = link_in (mem st) class_ptr bp NULL head /\
    GET (mem st') class_ptr = bp /\
    PRED (mem st') bp = NULL /\
    SUCC (mem st') bp = head /\
    (head <> NULL -> PRED (mem st') head = bp).
Proof.
  intros class_ptr head Hf Hidx Hhead Hbp D1 D2 D3 D4 D5.
  destruct (class_of size) as [s i] eqn:Hc. cbn [fst snd] in *.
  assert (Hs : s <= 1).
  { apply (class_loop_shifted 14 size 0 s i Hc Hidx). unfold MAXCLASS in Hidx. lia. }
  split; [exact Hs|].
  unfold insert_list. rewrite Hc. cbv zeta. fold class_ptr. fold head.
  rewrite search_pos_stops by assumption. cbn.
  eexists. split; [reflexivity|]. cbn [mem set_mem].
  split; [reflexivity|].
  assert (Hh : w32 head = head) by (apply w32_id, GET_range).
  unfold link_in, PRED, SUCC, PRED_PTR, SUCC_PTR, WSIZE in *.
  change (negb (NULL =? NULL)) with false. cbv iota.
  destruct (head =? NULL) eqn:E; cbn [negb]; cbv iota.
  - repeat split.
    + rewrite GET_PUT_eq. apply w32_id, Hbp.
    + rewrite !GET_PUT_ne by lia. rewrite GET_PUT_eq. reflexivity.
    + rewrite GET_PUT_ne by lia. rewrite GET_PUT_eq. exact Hh.
    + intros Hn. lia.
  - repeat split.
    + rewrite GET_PUT_eq. apply w32_id, Hbp.
    + rewrite !GET_PUT_ne by lia. rewrite GET_PUT_eq. reflexivity.
    + rewrite !GET_PUT_ne by lia. rewrite GET_PUT_eq. exact Hh.
    + intros _. rewrite GET_PUT_ne by lia. rewrite GET_PUT_eq.
      apply w32_id, Hbp.
Qed.

(** * Adjacent free blocks after an in-place reallocation (C1) *)

(** C1 fails on this run.  [init(); p = malloc(8); n = malloc(8);
    x = malloc(8); y = malloc(4056); free(n);] leaves a heap in which no
    free block has a free neighbour.  [realloc(p, 100)] then finds the free
    block [n] after [p], too small, and extends the heap - but [n] is not
    the last block, so the new space is not next to it; the header of [p]
    is nevertheless set to 4128 bytes and its footer is written over the
    footer of the free block at 1120.  After [free(y)] the free lists hold
    the blocks 1120 and 5200, both tagged free, and 5200 is the block that
    physically follows 1120. *)
Theorem realloc_growth_breaks_coalescing :
  no_adjacent_free 64 (unwrap run_before_realloc) = true /\
  (exists st, run_realloc_then_free = Ret st /\
     free_blocks 64 st = [1120; 5200] /\
     GET_ALLOC (mem st) (HDRP 1120) = 0 /\
     NEXT_BLKP (mem st) 1120 = 5200 /\
     GET_ALLOC (mem st) (HDRP 5200) = 0 /\
     GET (mem st) (HDRP 1072) = PACK 4128 1 /\
     no_adjacent_free 64 st = false).
Proof.
  split; [vm_compute; reflexivity|].
  destruct run_realloc_then_free as [st| |] eqn:E; try (vm_compute in E; discriminate).
  exists st. split; [reflexivity|].
  assert (Hst : st = unwrap run_realloc_then_free) by (rewrite E; reflexivity).
  rewrite Hst. clear. vm_compute. repeat split; reflexivity.
Qed.

(** * Order of the free lists (C2) *)

(** C2 fails on this run.  After [free(a)] the list of class 4 holds one
    block of 16 bytes.  [free(c)] inserts a block of 24 bytes into the same
    list; the first block with size >= 24 does not exist, so the block
    belongs at the tail, but [insert_list] puts it at the head and the list
    reads 24, 16. *)
Theorem insert_list_breaks_order :
  sizes_of (unwrap run_two_frees_first) (bucket 64 (unwrap run_two_frees_first) 4) = [16] /\
  (exists st, run_two_frees = Ret st /\
     bucket 64 st 4 = [1104; 1072] /\
     sizes_of st (bucket 64 st 4) = [24; 16] /\
     lists_sorted 64 st = false).
Proof.
  split; [vm_compute; reflexivity|].
  destruct run_two_frees as [st| |] eqn:E; try (vm_compute in E; discriminate).
  exists st. split; [reflexivity|].
  assert (Hst : st = unwrap run_two_frees) by (rewrite E; reflexivity).
  rewrite Hst. clear. vm_compute. repeat split; reflexivity.
Qed.

(** * Fits that are not found (C3) *)

(** C3 fails on this run.  After [a = malloc(40000); free(a);] the list of
    the last class, which is the class of the adjusted size 40008, holds a
    free block of 44104 bytes, yet [find_fit(40008)] reports not-found, and
    a second [malloc(40000)] grows the heap from 45176 to 85184 instead of
    reusing the block. *)
Theorem find_fit_misses_large_block :
  exists st, run_large_free = Ret st /\
    snd (class_of 40008) = 14 /\
    bucket 64 st 14 = [1072] /\
    GET_SIZE (mem st) (HDRP 1072) = 44104 /\
    find_fit 64 st 40008 = Ret NULL /\
    mem_brk st = 45176 /\
    mem_brk (state_of (mm_malloc 64 st 40000)) = 85184.
Proof.
  destruct run_large_free as [st| |] eqn:E; try (vm_compute in E; discriminate).
  exists st. split; [reflexivity|].
  assert (Hst : st = unwrap run_large_free) by (rewrite E; reflexivity).
  rewrite Hst. clear. vm_compute. repeat split; reflexivity.
Qed.

(** * Failure of the growth primitive (C5) *)

Lemma malloc_growth_failure (fuel : nat) (st : state) (size : Z) :
  size <> 0 ->
  find_fit fuel st (adjust size) = Ret NULL ->
  mem_sbrk st (ALIGN (MAX (adjust size) CHUNKSIZE)) = None ->
  mm_malloc fuel st size = Ret (st, NULL).
Proof.
  intros Hs Hfit Hsbrk. unfold mm_malloc.
  destruct (size =? 0) eqn:E; [lia|]. cbv zeta. rewrite Hfit. cbn.
  unfold extend_heap. rewrite Hsbrk. reflexivity.
Qed.

(** C5 fails on this run.  The heap cannot grow; [p] is an allocated
    block followed by the allocated block [q].  [mm_malloc(5008)] alone
    returns null and changes nothing, but [realloc(p, 5000)] takes the
    allocate-copy-free path, does not test the null result of its
    [mm_malloc] and hands it to [memcpy]: the call does not return null
    with the heap unchanged. *)
Theorem realloc_ignores_failed_malloc :
  let st := state_of run_exhausted in
  mem_sbrk st (ALIGN (MAX (adjust 5008) CHUNKSIZE)) = None /\
  GET_ALLOC (mem st) (HDRP 1072) = 1 /\
  GET_ALLOC (mem st) (HDRP (NEXT_BLKP (mem st) 1072)) = 1 /\
  mm_malloc 64 st 5008 = Ret (st, NULL) /\
  mm_realloc 64 st 1072 5000 = Segv /\
  mm_realloc 64 st 1072 5000 <> Ret (st, NULL).
Proof.
  cbv zeta.
  assert (E : mm_realloc 64 (state_of run_exhausted) 1072 5000 = Segv)
    by (vm_compute; reflexivity).
  split; [vm_compute; reflexivity|].
  split; [vm_compute; reflexivity|].
  split; [vm_compute; reflexivity|].
  split; [apply malloc_growth_failure; [lia | vm_compute; reflexivity..]|].
  split; [exact E|]. rewrite E. discriminate.
Qed.

(** * Alignment of returned pointers (C7) *)

Lemma bind_Ret {A B : Type} (r : result A) (k : A -> result B) (b : B) :
  (r ≫= k) = Ret b -> exists a, r = Ret a /\ k a = Ret b.
Proof. destruct r as [a| |]; cbn; intros H; try discriminate. eauto. Qed.

Lemma aligned8_sub_size m p q : aligned8 p -> aligned8 (p - GET_SIZE m q).
Proof. unfold aligned8. rewrite GET_SIZE_eq. intros. dlia. Qed.

Lemma aligned8_add_size m p q : aligned8 p -> aligned8 (p + GET_SIZE m q).
Proof. unfold aligned8. rewrite GET_SIZE_eq. intros. dlia. Qed.

Lemma fit_in_list_reaches fuel : forall m asize bp r,
  fit_in_list fuel m asize bp = Ret r -> r = NULL \/ reaches m bp r.
Proof.
  induction fuel as [|fuel IH]; intros m asize bp r H; cbn in H; [discriminate|].
  destruct (bp =? NULL) eqn:E; cbn in H.
  - inversion H; subst. left. unfold NULL in *. lia.
  - assert (bp <> NULL) by lia.
    destruct (GET_SIZE m (HDRP bp) <? asize).
    + destruct (IH _ _ _ _ H) as [->|Hr]; [by left|].
      right. by apply reaches_succ.
    + inversion H; subst. right. by apply reaches_here.
Qed.

Lemma find_fit_loop_reaches n : forall fuel st asize size idx r,
  0 <= idx ->
  find_fit_loop n fuel st asize size idx = Ret r ->
  r = NULL \/
  exists i, 0 <= i < MAXCLASS /\
    reaches (mem st) (GET (mem st) (heap_listp st + i * WSIZE)) r.
Proof.
  induction n as [|n IH]; intros fuel st asize size idx r Hidx H; cbn in H.
  - inversion H. by left.
  - destruct (idx <? MAXCLASS) eqn:E; [|inversion H; by left].
    destruct ((size <=? 1)
              && negb (GET (mem st) (heap_listp st + idx * WSIZE) =? NULL)).
    + apply bind_Ret in H as (bp & Hfit & H).
      destruct (bp =? NULL) eqn:E2; cbn in H.
      * apply IH in H; [exact H | lia].
      * inversion H; subst.
        apply fit_in_list_reaches in Hfit as [->|Hr]; [by left|].
        right. exists idx. split; [lia | exact Hr].
    + apply IH in H; [exact H | lia].
Qed.

Lemma find_fit_aligned fuel st asize r :
  lists_aligned st -> find_fit fuel st asize = Ret r -> aligned8 r.
Proof.
  intros Hal H. unfold find_fit in H.
  apply find_fit_loop_reaches in H; [|lia].
  destruct H as [->|(i & Hi & Hr)].
  - reflexivity.
  - exact (Hal i r Hi Hr).
Qed.

Lemma coalesce_aligned fuel st bp size st' r :
  coalesce fuel st bp size = Ret (st', r) -> aligned8 bp -> aligned8 r.
Proof.
  unfold coalesce. intros H Hbp.
  repeat match type of H with
  | context [if ?c then _ else _] => destruct c
  end;
  apply bind_Ret in H as (st2 & _ & H); inversion H; subst;
  first [exact Hbp | by apply aligned8_sub_size].
Qed.

Lemma mem_sbrk_ptr st incr st' bp :
  mem_sbrk st incr = Some (st', bp) ->
  bp = mem_brk st /\ mem_brk st' = mem_brk st + incr.
Proof.
  unfold mem_sbrk. destruct (_ <=? _); intros H; inversion H; subst. by cbn.
Qed.

Lemma extend_heap_aligned fuel st size st' r :
  extend_heap fuel st size = Ret (st', r) -> aligned8 (mem_brk st) -> aligned8 r.
Proof.
  unfold extend_heap. intros H Hbrk.
  destruct (mem_sbrk st (ALIGN size)) as [[st1 bp]|] eqn:E.
  - apply mem_sbrk_ptr in E as [-> _].
    eapply coalesce_aligned; [exact H | exact Hbrk].
  - inversion H. reflexivity.
Qed.

Lemma place_aligned fuel st bp asize st' r :
  place fuel st bp asize = Ret (st', r) -> aligned8 bp -> aligned8 r.
Proof.
  unfold place. intros H Hbp.
  destruct (_ <? 2 * DSIZE); [inversion H; by subst|].
  destruct (asize <? 96).
  - apply bind_Ret in H as (st1 & _ & H). inversion H; by subst.
  - apply bind_Ret in H as (st1 & _ & H). inversion H; subst.
    by apply aligned8_add_size.
Qed.

Lemma mm_malloc_aligned fuel st size st' p :
  lists_aligned st -> aligned8 (mem_brk st) ->
  mm_malloc fuel st size = Ret (st', p) -> aligned8 p.
Proof.
  intros Hal Hbrk. unfold mm_malloc.
  destruct (size =? 0); [intros H; inversion H; reflexivity|].
  intros H. apply bind_Ret in H as (bp & Hfit & H).
  apply find_fit_aligned in Hfit; [|exact Hal].
  destruct (bp =? NULL); cbn in H.
  - apply bind_Ret in H as ([st1 bp1] & Hext & H).
    apply extend_heap_aligned in Hext; [|exact Hbrk].
    destruct (bp1 =? NULL); [inversion H; reflexivity|].
    eapply place_aligned; eassumption.
  - eapply place_aligned; eassumption.
Qed.


(** * Placement (C4) *)

Lemma PACK_0 c : PACK c 0 = c.
Proof. apply Z.lor_0_r. Qed.

Lemma PACK_1 c : 0 <= c -> c mod 8 = 0 -> PACK c 1 = c + 1.
Proof. intros. apply lor_even_1; [assumption | dlia]. Qed.

Lemma GET_PUT_tag m a c al :
  0 <= c < 2 ^ 32 -> c mod 8 = 0 -> al = 0 \/ al = 1 ->
  GET (PUT m a (PACK c al)) a = PACK c al.
Proof.
  intros Hc H8 [->| ->]; rewrite GET_PUT_eq.
  - rewrite PACK_0. by apply w32_id.
  - rewrite PACK_1 by lia. apply w32_id. dlia.
Qed.

Lemma GET_SIZE_PUT_tag m a c al :
  0 <= c < 2 ^ 32 -> c mod 8 = 0 -> al = 0 \/ al = 1 ->
  GET_SIZE (PUT m a (PACK c al)) a = c.
Proof.
  intros Hc H8 Hal. rewrite GET_SIZE_eq, GET_PUT_tag by assumption.
  destruct Hal as [->| ->]; [rewrite PACK_0 | rewrite PACK_1 by lia]; dlia.
Qed.

Lemma GET_SIZE_PUT_ne m a b v : a <> b -> GET_SIZE (PUT m a v) b = GET_SIZE m b.
Proof. intros. unfold GET_SIZE. by rewrite GET_PUT_ne. Qed.

Lemma search_pos_chain m size l : forall fuel last0 h,
  chain m h l -> (length l < fuel)%nat ->
  exists last cur,
    search_pos fuel m size last0 h = Ret (last, cur) /\
    (cur = NULL \/ In cur l) /\ (last = last0 \/ In last l).
Proof.
  induction l as [|n l IH]; intros fuel last0 h Hc Hf;
    (destruct fuel as [|fuel]; [cbn in Hf; lia|]); cbn in Hc; cbn [search_pos].
  - subst h. exists last0, NULL. cbn. auto.
  - destruct Hc as (-> & Hn & Hc).
    destruct (n =? NULL) eqn:E; [lia|]. cbn [negb andb].
    destruct (GET_SIZE m (HDRP n) <? size).
    + destruct (IH fuel n _ Hc) as (last & cur & Hs & Hcur & Hlast);
        [cbn in Hf; lia|].
      exists last, cur. split; [exact Hs|]. split.
      * destruct Hcur; [by left | right; by right].
      * right. destruct Hlast as [->|]; [by left | by right].
    + exists last0, n. split; [reflexivity|]. split; [right; by left | by left].
Qed.

Lemma chain_frame m m' l : forall h,
  (forall n, In n l -> SUCC m' n = SUCC m n) ->
  chain m h l -> chain m' h l.
Proof.
  induction l as [|n l IH]; intros h Hfr Hc; cbn in *; [exact Hc|].
  destruct Hc as (-> & Hn & Hc). split; [reflexivity|]. split; [exact Hn|].
  rewrite Hfr by (by left). apply IH; [|exact Hc]. intros; apply Hfr. by right.
Qed.

Lemma link_in_frame m class_ptr bp last cur a :
  a <> bp -> a <> bp + WSIZE ->
  (cur <> NULL -> a <> cur) ->
  (last <> NULL -> a <> last + WSIZE) ->
  (last = NULL -> a <> class_ptr) ->
  GET (link_in m class_ptr bp last cur) a = GET m a.
Proof.
  intros H1 H2 H3 H4 H5. unfold link_in, PRED_PTR, SUCC_PTR.
  destruct (last =? NULL) eqn:El; destruct (cur =? NULL) eqn:Ec; cbn [negb];
    rewrite !GET_PUT_ne; try reflexivity; try assumption;
    first [apply not_eq_sym; assumption
          | apply not_eq_sym, H3; lia | apply not_eq_sym, H4; lia
          | apply not_eq_sym, H5; lia | idtac].
Qed.

Lemma remove_list_heap_listp st bp : heap_listp (remove_list st bp) = heap_listp st.
Proof. unfold remove_list. destruct (class_of _). reflexivity. Qed.

Lemma insert_list_chain fuel st bp size l :
  let class_ptr := heap_listp st + snd (class_of size) * WSIZE in
  chain (mem st) (GET (mem st) class_ptr) l -> (length l < fuel)%nat ->
  exists last cur,
    insert_list fuel st bp size
      = Ret (set_mem st (link_in (mem st) class_ptr bp last cur)) /\
    (cur = NULL \/ In cur l) /\ (last = NULL \/ In last l).
Proof.
  intros class_ptr Hc Hf. unfold insert_list.
  destruct (class_of size) as [s i] eqn:E. cbn [snd] in class_ptr. fold class_ptr.
  destruct (search_pos_chain (mem st) s l fuel NULL _ Hc Hf)
    as (last & cur & Hs & Hcur & Hlast).
  exists last, cur. cbv zeta. rewrite Hs. cbn. auto.
Qed.

(** What a list insertion leaves alone: every word that is not a link
    field of the new block, not a link field of a block of the list, and
    not a class slot. *)
Lemma insert_list_frame fuel st bp size l st' a :
  let class_ptr := heap_listp st + snd (class_of size) * WSIZE in
  chain (mem st) (GET (mem st) class_ptr) l ->
  insert_list fuel st bp size = Ret st' ->
  (length l < fuel)%nat ->
  a <> bp -> a <> bp + WSIZE -> a <> class_ptr ->
  (forall n, In n l -> a <> n /\ a <> n + WSIZE) ->
  GET (mem st') a = GET (mem st) a.
Proof.
  intros class_ptr Hc Hi Hf H1 H2 H3 H4.
  destruct (insert_list_chain fuel st bp size l Hc Hf)
    as (last & cur & Hs & Hcur & Hlast).
  fold class_ptr in Hs. rewrite Hs in Hi. inversion Hi; subst st'. cbn [mem set_mem].
  apply link_in_frame; try assumption.
  - intros Hn. destruct Hcur as [?|Hin]; [contradiction|]. apply H4, Hin.
  - intros Hn. destruct Hlast as [?|Hin]; [contradiction|]. apply H4, Hin.
  - intros _. exact H3.
Qed.

Lemma place_whole fuel st bp asize :
  let csize := GET_SIZE (mem st) (HDRP bp) in
  let m0 := mem (remove_list st bp) in
  0 <= asize <= csize -> csize - asize < 16 ->
  place fuel st bp asize =
    Ret (set_mem (remove_list st bp)
           (PUT (PUT m0 (HDRP bp) (PACK csize 1)) (bp + csize - DSIZE) (PACK csize 1)),
         bp).
Proof.
  intros csize m0 Ha Hr.
  pose proof (GET_SIZE_range (mem st) (HDRP bp)) as Hc.
  pose proof (GET_SIZE_mod8 (mem st) (HDRP bp)) as H8. fold csize in Hc, H8.
  unfold place. fold csize. fold m0.
  rewrite (w32_id (csize - asize)) by lia.
  change (2 * DSIZE) with 16.
  destruct (csize - asize <? 16) eqn:E; [|lia].
  unfold FTRP. rewrite GET_SIZE_PUT_tag by auto. reflexivity.
Qed.

Lemma GET_SIZE_PUT_tag' m a b c al :
  a = b -> 0 <= c < 2 ^ 32 -> c mod 8 = 0 -> al = 0 \/ al = 1 ->
  GET_SIZE (PUT m a (PACK c al)) b = c.
Proof. intros <-. apply GET_SIZE_PUT_tag. Qed.

Ltac addr_lia := unfold HDRP, WSIZE, DSIZE, MAXCLASS in *; dlia.

(** Resolve one size read through the tag writes before it. *)
Ltac size_step :=
  match goal with
  | |- context [GET_SIZE (PUT ?m ?a (PACK ?c ?al)) ?b] =>
      first [ rewrite (GET_SIZE_PUT_tag' m a b c al) by (auto; addr_lia)
            | rewrite (GET_SIZE_PUT_ne m a b (PACK c al)) by addr_lia ]
  end.

Lemma place_low fuel st bp asize :
  let csize := GET_SIZE (mem st) (HDRP bp) in
  let remain := csize - asize in
  let m0 := mem (remove_list st bp) in
  0 < asize -> asize mod 8 = 0 -> 16 <= remain -> asize < 96 ->
  place fuel st bp asize =
    (st1 ← insert_list fuel
             (set_mem (remove_list st bp)
                (PUT (PUT (PUT (PUT m0 (HDRP bp) (PACK asize 1))
                             (bp + asize - DSIZE) (PACK asize 1))
                        (HDRP (bp + asize)) (PACK remain 0))
                   (bp + csize - DSIZE) (PACK remain 0)))
             (bp + asize) remain;
     Ret (st1, bp)).
Proof.
  intros csize remain m0 Ha Ha8 Hr Hs.
  pose proof (GET_SIZE_range (mem st) (HDRP bp)) as Hc.
  pose proof (GET_SIZE_mod8 (mem st) (HDRP bp)) as H8. fold csize in Hc, H8.
  assert (Hr8 : remain mod 8 = 0) by (unfold remain; dlia).
  assert (Hrr : 0 <= remain < 2 ^ 32) by (unfold remain; lia).
  assert (Haa : 0 <= asize < 2 ^ 32) by (unfold remain in *; lia).
  unfold place. fold csize. fold m0.
  rewrite (w32_id (csize - asize)) by (fold remain; lia). fold remain.
  change (2 * DSIZE) with 16.
  destruct (remain <? 16) eqn:E; [lia|].
  destruct (asize <? 96) eqn:E2; [|lia].
  unfold FTRP, NEXT_BLKP. fold (HDRP bp).
  repeat size_step.
  replace (bp + asize + remain - DSIZE) with (bp + csize - DSIZE)
    by (unfold remain; lia).
  reflexivity.
Qed.

Lemma place_high fuel st bp asize :
  let csize := GET_SIZE (mem st) (HDRP bp) in
  let remain := csize - asize in
  let m0 := mem (remove_list st bp) in
  0 < asize -> asize mod 8 = 0 -> 16 <= remain -> 96 <= asize ->
  place fuel st bp asize =
    (st1 ← insert_list fuel
             (set_mem (remove_list st bp)
                (PUT (PUT m0 (HDRP bp) (PACK remain 0))
                   (bp + remain - DSIZE) (PACK remain 0)))
             bp remain;
     let bp' := NEXT_BLKP (mem st1) bp in
     let m3 := PUT (mem st1) (HDRP bp') (PACK asize 1) in
     Ret (set_mem st1 (PUT m3 (bp' + asize - DSIZE) (PACK asize 1)), bp')).
Proof.
  intros csize remain m0 Ha Ha8 Hr Hs.
  pose proof (GET_SIZE_range (mem st) (HDRP bp)) as Hc.
  pose proof (GET_SIZE_mod8 (mem st) (HDRP bp)) as H8. fold csize in Hc, H8.
  assert (Hr8 : remain mod 8 = 0) by (unfold remain; dlia).
  assert (Hrr : 0 <= remain < 2 ^ 32) by (unfold remain; lia).
  assert (Haa : 0 <= asize < 2 ^ 32) by (unfold remain in *; lia).
  unfold place. fold csize. fold m0.
  rewrite (w32_id (csize - asize)) by (fold remain; lia). fold remain.
  change (2 * DSIZE) with 16.
  destruct (remain <? 16) eqn:E; [lia|].
  destruct (asize <? 96) eqn:E2; [lia|].
  unfold FTRP. fold (HDRP bp).
  repeat size_step.
  destruct (insert_list _ _ _ _) as [st1| |]; cbn; [|reflexivity..].
  rewrite GET_SIZE_PUT_tag by auto. reflexivity.
Qed.

(** Link writes of an insertion stay clear of the words of a region
    [lo, hi] that lies above the class table and holds no block of the
    list. *)
Lemma link_in_keeps m cp b last cur l lo hi a :
  (cur = NULL \/ In cur l) -> (last = NULL \/ In last l) ->
  (forall n, In n l -> n + WSIZE < lo \/ hi < n) ->
  cp < lo -> lo <= a <= hi -> a <> b -> a <> b + WSIZE ->
  GET (link_in m cp b last cur) a = GET m a.
Proof.
  intros Hcur Hlast Hout Hcp Ha H1 H2.
  apply link_in_frame; try assumption.
  - intros Hn. destruct Hcur as [?|Hin]; [contradiction|].
    specialize (Hout _ Hin). addr_lia.
  - intros Hn. destruct Hlast as [?|Hin]; [contradiction|].
    specialize (Hout _ Hin). addr_lia.
  - intros _. lia.
Qed.

Lemma GET_PUT_tag' m a b c al :
  a = b -> 0 <= c < 2 ^ 32 -> c mod 8 = 0 -> al = 0 \/ al = 1 ->
  GET (PUT m a (PACK c al)) b = PACK c al.
Proof. intros <-. apply GET_PUT_tag. Qed.

(** Resolve one word read through the tag writes before it. *)
Ltac get_step :=
  match goal with
  | |- context [GET (PUT ?m ?a (PACK ?c ?al)) ?b] =>
      first [ rewrite (GET_PUT_tag' m a b c al) by (auto; addr_lia)
            | rewrite (GET_PUT_ne m a b (PACK c al)) by addr_lia ]
  end.


(** * The heap that [mm_init] builds, and the break *)

Lemma clear_classes_frame n : forall m base i a,
  (forall j, i <= j < i + Z.of_nat n -> a <> base + j * WSIZE) ->
  GET (clear_classes n m base i) a = GET m a.
Proof.
  induction n as [|n IH]; intros m base i a Ha; cbn [clear_classes]; [reflexivity|].
  rewrite IH by (intros j Hj; apply Ha; lia).
  apply GET_PUT_ne, not_eq_sym, Ha. lia.
Qed.

Lemma clear_classes_zero n : forall m base i j,
  i <= j < i + Z.of_nat n ->
  GET (clear_classes n m base i) (base + j * WSIZE) = 0.
Proof.
  induction n as [|n IH]; intros m base i j Hj; cbn [clear_classes]; [lia|].
  destruct (Z.eq_dec j i) as [->|Hne].
  - rewrite clear_classes_frame by (intros k Hk; addr_lia).
    apply GET_PUT_eq.
  - apply IH. lia.
Qed.

Lemma GET_PUT_eq' m a b v : a = b -> GET (PUT m a v) b = w32 v.
Proof. intros <-. apply GET_PUT_eq. Qed.

(** Resolve one word read through the stores before it. *)
Ltac word_step :=
  match goal with
  | |- context [GET (PUT ?m ?a ?v) ?b] =>
      first [ rewrite (GET_PUT_eq' m a b v) by addr_lia
            | rewrite (GET_PUT_ne m a b v) by addr_lia ]
  end.

(** Case 1 of [coalesce]: both neighbours allocated. *)
Lemma coalesce_between_allocated fuel st bp size :
  GET_ALLOC (mem st) (HDRP (PREV_BLKP (mem st) bp)) = 1 ->
  GET_ALLOC (mem st) (HDRP (NEXT_BLKP (mem st) bp)) = 1 ->
  coalesce fuel st bp size = (st2 ← insert_list fuel st bp size; Ret (st2, bp)).
Proof.
  intros Hp Hn. unfold coalesce. rewrite Hp, Hn. reflexivity.
Qed.

Lemma GET_ALLOC_PUT_tag' m a b c al :
  a = b -> 0 <= c < 2 ^ 32 -> c mod 8 = 0 -> al = 0 \/ al = 1 ->
  GET_ALLOC (PUT m a (PACK c al)) b = al.
Proof.
  intros <- Hc H8 Hal. unfold GET_ALLOC. rewrite GET_PUT_tag by assumption.
  rewrite land_1. destruct Hal as [->| ->];
    [rewrite PACK_0 | rewrite PACK_1 by lia]; dlia.
Qed.

Lemma GET_ALLOC_PUT_ne m a b v : a <> b -> GET_ALLOC (PUT m a v) b = GET_ALLOC m b.
Proof. intros. unfold GET_ALLOC. by rewrite GET_PUT_ne. Qed.

(** Resolve one allocation flag read through the tag writes before it. *)
Ltac alloc_step :=
  match goal with
  | |- context [GET_ALLOC (PUT ?m ?a (PACK ?c ?al)) ?b] =>
      first [ rewrite (GET_ALLOC_PUT_tag' m a b c al) by (auto; addr_lia)
            | rewrite (GET_ALLOC_PUT_ne m a b (PACK c al)) by addr_lia ]
  end.

Lemma mm_init_runs fuel st :
  (0 < fuel)%nat ->
  let p := mem_brk st in
  0 <= p ->
  p + 72 + 4096 <= mem_max_addr st ->
  exists st',
    mm_init fuel st = Ret (st', 0) /\
    heap_listp st' = p /\
    mem_brk st' = p + 72 + 4096 /\
    (forall i, 0 <= i < MAXCLASS -> i <> 12 -> GET (mem st') (p + i * WSIZE) = NULL) /\
    GET (mem st') (p + 12 * WSIZE) = w32 (p + 72) /\
    GET (mem st') (p + 72 + WSIZE) = NULL.
Proof.
  intros Hfuel p Hp Hle. unfold mm_init, mem_sbrk. fold p.
  change ((3 + MAXCLASS) * WSIZE) with 72.
  destruct (p + 72 <=? mem_max_addr st) eqn:E1; [|lia].
  cbn [mem heap_listp mem_brk mem_max_addr].
  unfold extend_heap, mem_sbrk. change (ALIGN CHUNKSIZE) with 4096.
  cbn [mem heap_listp mem_brk mem_max_addr set_mem].
  destruct (p + 72 + 4096 <=? mem_max_addr st) eqn:E2; [|lia].
  cbn [mem heap_listp mem_brk mem_max_addr set_mem].
  unfold FTRP, NEXT_BLKP. fold (HDRP (p + 72)).
  repeat size_step.
  rewrite coalesce_between_allocated; cbn [mem set_mem].
  2: { unfold PREV_BLKP. repeat size_step. repeat alloc_step. reflexivity. }
  2: { unfold NEXT_BLKP. fold (HDRP (p + 72)). repeat size_step. repeat alloc_step. reflexivity. }
  unfold insert_list. change (class_of 4096) with (1, 12).
  cbv beta iota zeta. cbn [mem heap_listp set_mem].
  set (m7 := PUT _ (HDRP (p + 72 + 4096)) _).
  assert (Hslot : forall i, 0 <= i < MAXCLASS -> GET m7 (p + i * WSIZE) = 0).
  { intros i Hi. unfold m7. repeat word_step. apply clear_classes_zero. addr_lia. }
  rewrite (Hslot 12) by addr_lia.
  destruct fuel as [|fuel]; [lia|]. cbn [search_pos].
  change (negb (0 =? NULL) && _) with false. cbv iota.
  cbn [mbind result_mbind result_bind].
  destruct (p + 72 =? NULL) eqn:E3; [unfold NULL in *; lia|].
  eexists. split; [reflexivity|]. cbn [mem heap_listp mem_brk set_mem].
  split; [reflexivity|]. split; [reflexivity|].
  unfold link_in, PRED_PTR, SUCC_PTR.
  change (negb (NULL =? NULL)) with false. change (negb (0 =? NULL)) with false.
  cbv iota.
  split; [|split].
  - intros i Hi Hne. repeat word_step. apply Hslot, Hi.
  - repeat word_step. reflexivity.
  - repeat word_step. reflexivity.
Qed.

Lemma mm_init_fails fuel st :
  ~ mem_brk st + 72 + 4096 <= mem_max_addr st ->
  exists st', mm_init fuel st = Ret (st', -1).
Proof.
  intros Hle. unfold mm_init, mem_sbrk.
  change ((3 + MAXCLASS) * WSIZE) with 72.
  destruct (mem_brk st + 72 <=? mem_max_addr st) eqn:E1; [|eexists; reflexivity].
  cbn [mem heap_listp mem_brk mem_max_addr].
  unfold extend_heap, mem_sbrk. change (ALIGN CHUNKSIZE) with 4096.
  cbn [mem heap_listp mem_brk mem_max_addr set_mem].
  destruct (mem_brk st + 72 + 4096 <=? mem_max_addr st) eqn:E2; [lia|].
  eexists. reflexivity.
Qed.

Lemma reaches_null m n : ~ reaches m NULL n.
Proof. intros H. inversion H; congruence. Qed.

(** X19: after a successful [mm_init] on an aligned break, with the heap
    in the 32-bit address range, every block on a free list is 8-byte
    aligned and so is the break: the state meets the conditions under
    which returned pointers are aligned. *)
Lemma mm_init_aligned fuel st st' :
  (0 < fuel)%nat ->
  0 <= mem_brk st -> mem_max_addr st <= 2 ^ 32 ->
  aligned8 (mem_brk st) ->
  mm_init fuel st = Ret (st', 0) ->
  lists_aligned st' /\ aligned8 (mem_brk st').
Proof.
  intros Hfuel H0 Hmax Hal H.
  destruct (Z.le_gt_cases (mem_brk st + 72 + 4096) (mem_max_addr st)) as [Hle|Hgt].
  - destruct (mm_init_runs fuel st Hfuel H0 Hle)
      as (st2 & Hrun & Hhl & Hbrk & Hslots & Hhead & Hsucc).
    rewrite Hrun in H. inversion H; subst st2; clear H.
    split; [|rewrite Hbrk; unfold aligned8 in *; dlia].
    intros i n Hi Hr. rewrite Hhl in Hr.
    destruct (Z.eq_dec i 12) as [->|Hne].
    + rewrite Hhead, w32_id in Hr by dlia.
      inversion Hr; subst.
      * unfold aligned8 in *. dlia.
      * unfold SUCC, SUCC_PTR in *.
        match goal with Hx : reaches _ (GET _ _) _ |- _ => rewrite Hsucc in Hx;
          exfalso; exact (reaches_null _ _ Hx) end.
    + rewrite Hslots in Hr by assumption. exfalso. exact (reaches_null _ _ Hr).
  - destruct (mm_init_fails fuel st) as (st2 & Hf); [lia|].
    rewrite Hf in H. inversion H.
Qed.

(** The break stays aligned. *)
Lemma insert_list_brk fuel st bp size st' :
  insert_list fuel st bp size = Ret st' -> mem_brk st' = mem_brk st.
Proof.
  unfold insert_list. destruct (class_of size). intros H.
  apply bind_Ret in H as ([last cur] & _ & H). inversion H. reflexivity.
Qed.

Lemma remove_list_brk st bp : mem_brk (remove_list st bp) = mem_brk st.
Proof. unfold remove_list. destruct (class_of _). reflexivity. Qed.

Lemma coalesce_brk fuel st bp size st' r :
  coalesce fuel st bp size = Ret (st', r) -> mem_brk st' = mem_brk st.
Proof.
  unfold coalesce. intros H.
  repeat match type of H with
  | context [if ?c then _ else _] => destruct c
  end;
  apply bind_Ret in H as (st2 & Hi & H); inversion H; subst;
  apply insert_list_brk in Hi; rewrite Hi; cbn [mem_brk set_mem];
  rewrite ?remove_list_brk; reflexivity.
Qed.

Lemma extend_heap_brk fuel st size st' r :
  extend_heap fuel st size = Ret (st', r) ->
  aligned8 (mem_brk st) -> aligned8 (mem_brk st').
Proof.
  unfold extend_heap. intros H Hal.
  destruct (mem_sbrk st (ALIGN size)) as [[st1 bp]|] eqn:E.
  - apply mem_sbrk_ptr in E as [_ Hb]. apply coalesce_brk in H.
    rewrite H. cbn [mem_brk set_mem]. rewrite Hb.
    unfold aligned8 in *. rewrite ALIGN_eq. dlia.
  - inversion H; by subst.
Qed.

Lemma place_brk fuel st bp asize st' r :
  place fuel st bp asize = Ret (st', r) -> mem_brk st' = mem_brk st.
Proof.
  unfold place. intros H.
  destruct (_ <? 2 * DSIZE);
    [inversion H; cbn [mem_brk set_mem]; apply remove_list_brk|].
  destruct (asize <? 96); apply bind_Ret in H as (st1 & Hi & H);
    inversion H; subst; apply insert_list_brk in Hi; cbn [mem_brk set_mem] in *;
    rewrite Hi; apply remove_list_brk.
Qed.

Lemma mm_malloc_brk fuel st size st' p :
  mm_malloc fuel st size = Ret (st', p) ->
  aligned8 (mem_brk st) -> aligned8 (mem_brk st').
Proof.
  unfold mm_malloc. intros H Hal.
  destruct (size =? 0); [inversion H; by subst|].
  apply bind_Ret in H as (bp & _ & H).
  destruct (bp =? NULL); cbn in H.
  - apply bind_Ret in H as ([st1 bp1] & Hext & H).
    apply extend_heap_brk in Hext; [|exact Hal].
    destruct (bp1 =? NULL); [inversion H; by subst|].
    apply place_brk in H. by rewrite H.
  - apply place_brk in H. by rewrite H.
Qed.

Lemma mm_free_brk fuel st bp st' :
  mm_free fuel st bp = Ret st' -> mem_brk st' = mem_brk st.
Proof.
  unfold mm_free. intros H. apply bind_Ret in H as ([st1 r] & Hc & H).
  inversion H; subst. apply coalesce_brk in Hc. exact Hc.
Qed.

(** * The properties at concrete heaps *)

Lemma reaches_in_list_nodes fuel : forall m h n,
  (length (list_nodes fuel m h) < fuel)%nat ->
  reaches m h n -> In n (list_nodes fuel m h).
Proof.
  induction fuel as [|fuel IH]; intros m h n Hlen Hr; [cbn in Hlen; lia|].
  cbn [list_nodes] in *. destruct (h =? NULL) eqn:E.
  - inversion Hr; subst; lia.
  - cbn [length] in Hlen. inversion Hr; subst; [by left|].
    right. apply IH; [lia | assumption].
Qed.

Lemma lists_aligned_check_sound fuel st :
  lists_aligned_check fuel st = true -> lists_aligned st.
Proof.
  unfold lists_aligned_check. rewrite forallb_forall. intros Hall i n Hi Hr.
  assert (Hin : In i classes).
  { unfold classes, MAXCLASS in *.
    assert (i = 0 \/ i = 1 \/ i = 2 \/ i = 3 \/ i = 4 \/ i = 5 \/ i = 6 \/ i = 7
            \/ i = 8 \/ i = 9 \/ i = 10 \/ i = 11 \/ i = 12 \/ i = 13 \/ i = 14)
      as Hcases by lia.
    cbn. intuition auto. }
  specialize (Hall i Hin). apply andb_true_iff in Hall as [Hlen Hal].
  apply Nat.ltb_lt in Hlen. rewrite forallb_forall in Hal.
  unfold aligned8. apply Z.eqb_eq, Hal.
  apply reaches_in_list_nodes; assumption.
Qed.

(** Closed goals over a concrete heap are settled by evaluation. *)
Ltac by_eval :=
  clear; vm_compute;
  first [ reflexivity | discriminate
        | split; first [reflexivity | discriminate] ].

Lemma realloc_within_block_witness :
  mm_realloc 64 heap_one_block 1072 8 = Ret (heap_one_block, 1072).
Proof.
  apply realloc_within_block_is_identity; by_eval.
Defined.


Lemma insert_list_small_witness :
  let st := unwrap run_two_frees_first in
  let class_ptr := heap_listp st + snd (class_of 24) * WSIZE in
  let head := GET (mem st) class_ptr in
  fst (class_of 24) <= 1 /\
  exists st',
    insert_list 64 st 1104 24 = Ret st' /\
    mem st' = link_in (mem st) class_ptr 1104 NULL head /\
    GET (mem st') class_ptr = 1104 /\
    PRED (mem st') 1104 = NULL /\
    SUCC (mem st') 1104 = head /\
    (head <> NULL -> PRED (mem st') head = 1104).
Proof.
  apply (insert_list_small_goes_first 64 (unwrap run_two_frees_first) 1104 24).
  - apply Nat.lt_0_succ.
  - by_eval.
  - intros _. by_eval.
  - by_eval.
  - by_eval.
  - by_eval.
  - by_eval.
  - by_eval.
  - by_eval.
Defined.



(** * Further properties of the block encoding *)

Lemma GET_SIZE_of_tag m a c al :
  GET m a = PACK c al -> 0 <= c < 2 ^ 32 -> c mod 8 = 0 -> al = 0 \/ al = 1 ->
  GET_SIZE m a = c.
Proof.
  intros H Hc H8 Hal. rewrite GET_SIZE_eq, H.
  destruct Hal as [->| ->]; [rewrite PACK_0 | rewrite PACK_1 by lia]; dlia.
Qed.

(** X1: a size that is a multiple of 8 and an allocation bit packed into
    one word and stored are read back unchanged by [GET_SIZE] and
    [GET_ALLOC]. *)
Theorem tag_round_trip (m : gmap Z Z) (a c al : Z) :
  0 <= c < 2 ^ 32 -> c mod 8 = 0 -> al = 0 \/ al = 1 ->
  GET_SIZE (PUT m a (PACK c al)) a = c /\
  GET_ALLOC (PUT m a (PACK c al)) a = al.
Proof.
  intros Hc H8 Hal. split.
  - by apply GET_SIZE_PUT_tag.
  - by apply GET_ALLOC_PUT_tag'.
Qed.

Lemma tag_round_trip_witness :
  GET_SIZE (PUT ∅ 1068 (PACK 4096 1)) 1068 = 4096 /\
  GET_ALLOC (PUT ∅ 1068 (PACK 4096 1)) 1068 = 1.
Proof. apply tag_round_trip; [by_eval | by_eval | right; reflexivity]. Defined.

(** X2: for a block whose header and footer carry the same size, the
    footer is the word before the next header, and stepping to the next
    block and back with the boundary tags returns to the block. *)
Theorem next_prev_round_trip (m : gmap Z Z) (bp size al : Z) :
  tagged m bp size al ->
  0 <= size < 2 ^ 32 -> size mod 8 = 0 -> al = 0 \/ al = 1 ->
  NEXT_BLKP m bp = bp + size /\
  FTRP m bp = HDRP (NEXT_BLKP m bp) - WSIZE /\
  PREV_BLKP m (NEXT_BLKP m bp) = bp.
Proof.
  intros [Hh Hf] Hs H8 Hal.
  assert (Hn : NEXT_BLKP m bp = bp + size).
  { unfold NEXT_BLKP. fold (HDRP bp). by rewrite (GET_SIZE_of_tag _ _ _ _ Hh). }
  split; [exact Hn|]. split.
  - rewrite Hn. unfold FTRP. rewrite (GET_SIZE_of_tag _ _ _ _ Hh) by assumption.
    addr_lia.
  - rewrite Hn. unfold PREV_BLKP.
    rewrite (GET_SIZE_of_tag _ _ _ _ Hf) by assumption. lia.
Qed.

(** * Size adjustment *)

(** X3: [ALIGN] rounds a size up to the next multiple of 8, as long as
    that multiple fits in 32 bits. *)
Theorem ALIGN_rounds_up (x : Z) :
  0 <= x <= 2 ^ 32 - 8 ->
  x <= ALIGN x < x + 8 /\ ALIGN x mod 8 = 0 /\ (x mod 8 = 0 -> ALIGN x = x).
Proof.
  intros Hx. rewrite ALIGN_eq.
  rewrite w32_id by (change (2 ^ 32) with 4294967296 in *; lia).
  repeat split; try (intros; dlia).
Qed.

Lemma ALIGN_rounds_up_witness :
  13 <= ALIGN 13 < 13 + 8 /\ ALIGN 13 mod 8 = 0 /\ (13 mod 8 = 0 -> ALIGN 13 = 13).
Proof. apply ALIGN_rounds_up. by_eval. Defined.

(** X4: for a request of at most 2^32 - 16 bytes, the adjusted size is a
    multiple of 8, at least the minimum block size 16, and leaves room for
    the payload plus the two tag words without wasting a double word. *)
Theorem adjust_covers_request (size : Z) :
  0 < size <= 2 ^ 32 - 16 ->
  16 <= adjust size /\ adjust size mod 8 = 0 /\
  size + DSIZE <= adjust size < size + 2 * DSIZE.
Proof.
  intros Hs. unfold adjust, DSIZE in *. destruct (size <=? 8) eqn:E.
  - repeat split; first [lia | reflexivity].
  - rewrite ALIGN_eq.
    rewrite (w32_id (size + 8)) by (change (2 ^ 32) with 4294967296 in *; lia).
    rewrite w32_id by (change (2 ^ 32) with 4294967296 in *; lia).
    repeat split; dlia.
Qed.

Lemma adjust_covers_request_witness :
  16 <= adjust 100 /\ adjust 100 mod 8 = 0 /\
  100 + DSIZE <= adjust 100 < 100 + 2 * DSIZE.
Proof. apply adjust_covers_request. by_eval. Defined.

(** X5: a request within 15 bytes of 2^32 wraps around: its adjusted size
    is 0 or 8, below the minimum block size. *)
Theorem adjust_wraps_near_limit (size : Z) :
  2 ^ 32 - 16 < size < 2 ^ 32 ->
  adjust size = (if size <=? 2 ^ 32 - 8 then 0 else 8).
Proof.
  intros Hs. unfold adjust, DSIZE. change (2 ^ 32) with 4294967296 in *.
  destruct (size <=? 8) eqn:E; [lia|]. rewrite ALIGN_eq.
  destruct (size <=? 4294967296 - 8) eqn:E2.
  - destruct (Z.eq_dec size 4294967288) as [->|Hne]; [reflexivity|].
    rewrite (w32_id (size + 8)) by (change (2 ^ 32) with 4294967296; lia).
    assert (w32 (size + 8 + 7) = size + 15 - 4294967296) by dlia.
    rewrite H. Z.div_mod_to_equations; lia.
  - assert (w32 (size + 8) = size + 8 - 4294967296) by dlia.
    rewrite H. rewrite w32_id by (change (2 ^ 32) with 4294967296; lia).
    Z.div_mod_to_equations; lia.
Qed.

Lemma adjust_wraps_witness :
  adjust (2 ^ 32 - 8) = (if 2 ^ 32 - 8 <=? 2 ^ 32 - 8 then 0 else 8).
Proof. apply adjust_wraps_near_limit. by_eval. Defined.

(** * Size classes, continued *)

Lemma class_loop_log2 n : forall size idx,
  0 <= idx <= 14 ->
  snd (class_loop n size idx)
  = idx + Z.min (Z.log2 size) (Z.min (Z.of_nat n) (14 - idx)).
Proof.
  induction n as [|n IH]; intros size idx Hidx; cbn [class_loop].
  - cbn [snd]. pose proof (Z.log2_nonneg size). lia.
  - destruct ((1 <? size) && (idx <? MAXCLASS - 1)) eqn:E.
    + apply andb_true_iff in E as [E1 E2]. unfold MAXCLASS in E2.
      rewrite IH by lia.
      rewrite Z.log2_shiftr by lia.
      assert (1 <= Z.log2 size) by (apply Z.log2_le_pow2; lia).
      lia.
    + cbn [snd]. apply andb_false_iff in E as [E|E].
      * assert (Z.log2 size = 0).
        { destruct (Z.le_gt_cases size 0); [by apply Z.log2_nonpos|].
          assert (size = 1) as -> by lia. reflexivity. }
        lia.
      * unfold MAXCLASS in E. pose proof (Z.log2_nonneg size). lia.
Qed.

(** X6: the class index of a size is its binary logarithm capped at
    [MAXCLASS - 1]; it is 0 for sizes up to 1 and never decreases when the
    size grows. *)
Theorem class_index_is_capped_log2 (size size' : Z) :
  snd (class_of size) = Z.min (Z.log2 size) (MAXCLASS - 1) /\
  (size <= size' -> snd (class_of size) <= snd (class_of size')).
Proof.
  unfold class_of. rewrite !class_loop_log2 by lia. unfold MAXCLASS.
  split; [lia|]. intros Hle. pose proof (Z.log2_le_mono _ _ Hle). lia.
Qed.

(** * Finding a fit *)

Lemma fit_in_list_size fuel : forall m asize bp r,
  fit_in_list fuel m asize bp = Ret r -> r <> NULL ->
  asize <= GET_SIZE m (HDRP r).
Proof.
  induction fuel as [|fuel IH]; intros m asize bp r H Hr; cbn in H; [discriminate|].
  destruct (bp =? NULL) eqn:E; cbn in H.
  - inversion H; subst. unfold NULL in *. lia.
  - destruct (GET_SIZE m (HDRP bp) <? asize) eqn:E2.
    + eapply IH; eassumption.
    + inversion H; subst. lia.
Qed.

Lemma find_fit_loop_sound n : forall fuel st asize size idx r,
  0 <= idx -> size = Z.shiftr asize idx ->
  find_fit_loop n fuel st asize size idx = Ret r -> r <> NULL ->
  asize <= GET_SIZE (mem st) (HDRP r) /\
  exists i, idx <= i < MAXCLASS /\ Z.shiftr asize i <= 1 /\
    reaches (mem st) (GET (mem st) (heap_listp st + i * WSIZE)) r.
Proof.
  induction n as [|n IH]; intros fuel st asize size idx r Hidx Hsize H Hr; cbn in H.
  - inversion H. congruence.
  - destruct (idx <? MAXCLASS) eqn:E; [|inversion H; congruence].
    assert (Hnext : Z.shiftr size 1 = Z.shiftr asize (idx + 1))
      by (subst size; apply Z.shiftr_shiftr; lia).
    assert (Hrec : find_fit_loop n fuel st asize (Z.shiftr size 1) (idx + 1) = Ret r ->
      asize <= GET_SIZE (mem st) (HDRP r) /\
      exists i, idx <= i < MAXCLASS /\ Z.shiftr asize i <= 1 /\
        reaches (mem st) (GET (mem st) (heap_listp st + i * WSIZE)) r).
    { intros H'. destruct (IH fuel st asize (Z.shiftr size 1) (idx + 1) r ltac:(lia) Hnext H' Hr)
        as (Hs & i & Hi & Hsh & Hre).
      split; [exact Hs|]. exists i. split; [lia|]. by split. }
    destruct (size <=? 1) eqn:Es; cbn [andb] in H; [|by apply Hrec].
    destruct (negb (GET (mem st) (heap_listp st + idx * WSIZE) =? NULL));
      [|by apply Hrec].
    apply bind_Ret in H as (bp & Hfit & H).
    destruct (bp =? NULL) eqn:E2; cbn in H; [by apply Hrec|].
    inversion H; subst bp.
    split; [eapply fit_in_list_size; eassumption|].
    apply Z.leb_le in Es. apply Z.ltb_lt in E.
    exists idx. split; [lia|]. split; [rewrite <- Hsize; exact Es|].
    apply fit_in_list_reaches in Hfit as [->|Hre]; [congruence | exact Hre].
Qed.

(** X7: a block that [find_fit] returns is large enough for the request,
    and is on the free list of a class that the request is allowed to
    scan. *)
Theorem find_fit_sound (fuel : nat) (st : state) (asize r : Z) :
  find_fit fuel st asize = Ret r -> r <> NULL ->
  asize <= GET_SIZE (mem st) (HDRP r) /\
  exists i, 0 <= i < MAXCLASS /\ Z.shiftr asize i <= 1 /\
    reaches (mem st) (GET (mem st) (heap_listp st + i * WSIZE)) r.
Proof.
  intros H Hr. unfold find_fit in H.
  eapply find_fit_loop_sound; [| |exact H|exact Hr]; [lia | reflexivity].
Qed.

Lemma find_fit_sound_witness :
  16 <= GET_SIZE (mem heap_after_init) (HDRP 1072) /\
  exists i, 0 <= i < MAXCLASS /\ Z.shiftr 16 i <= 1 /\
    reaches (mem heap_after_init)
      (GET (mem heap_after_init) (heap_listp heap_after_init + i * WSIZE)) 1072.
Proof. apply (find_fit_sound 64); by_eval. Defined.

Lemma chain_nonnull m l : forall h n, chain m h l -> In n l -> n <> NULL.
Proof.
  induction l as [|x l IH]; intros h n Hc Hin; cbn in *; [contradiction|].
  destruct Hc as (-> & Hx & Hc). destruct Hin as [->|Hin]; [exact Hx|].
  eapply IH; eassumption.
Qed.

Lemma fit_in_list_chain m asize l : forall fuel h,
  chain m h l -> (length l < fuel)%nat ->
  exists r, fit_in_list fuel m asize h = Ret r /\
    ((r = NULL /\ forall n, In n l -> GET_SIZE m (HDRP n) < asize) \/
     (In r l /\ asize <= GET_SIZE m (HDRP r))).
Proof.
  induction l as [|x l IH]; intros fuel h Hc Hf;
    (destruct fuel as [|fuel]; [cbn in Hf; lia|]); cbn in Hc; cbn [fit_in_list].
  - subst h. exists NULL. split; [reflexivity|]. left. split; [reflexivity|].
    intros n [].
  - destruct Hc as (-> & Hx & Hc).
    destruct (x =? NULL) eqn:E; [lia|]. cbn [negb andb].
    destruct (GET_SIZE m (HDRP x) <? asize) eqn:E2.
    + destruct (IH fuel _ Hc) as (r & Hr & Hcase); [cbn in Hf; lia|].
      exists r. split; [exact Hr|].
      destruct Hcase as [[-> Hall]|[Hin Hsz]].
      * left. split; [reflexivity|]. intros n [->|Hn]; [lia | by apply Hall].
      * right. split; [by right | exact Hsz].
    + exists x. split; [reflexivity|]. right. split; [by left | lia].
Qed.

Lemma find_fit_loop_finds fuel st asize (lists : Z -> list Z) i b n :
  forall size idx,
  size = Z.shiftr asize idx -> 0 <= idx ->
  (forall j, idx <= j < MAXCLASS -> Z.shiftr asize j <= 1 ->
     chain (mem st) (GET (mem st) (heap_listp st + j * WSIZE)) (lists j) /\
     (length (lists j) < fuel)%nat) ->
  idx <= i < idx + Z.of_nat n -> i < MAXCLASS ->
  Z.shiftr asize i <= 1 ->
  In b (lists i) -> asize <= GET_SIZE (mem st) (HDRP b) ->
  exists r, find_fit_loop n fuel st asize size idx = Ret r /\
    r <> NULL /\ asize <= GET_SIZE (mem st) (HDRP r).
Proof.
  induction n as [|n IH]; intros size idx Hsize Hidx Hch Hi Himax Hscan Hb Hbs;
    [lia|].
  cbn [find_fit_loop]. destruct (idx <? MAXCLASS) eqn:E; [|lia].
  assert (Hnext : Z.shiftr size 1 = Z.shiftr asize (idx + 1))
    by (subst size; apply Z.shiftr_shiftr; lia).
  assert (Hrec : idx <> i ->
    exists r, find_fit_loop n fuel st asize (Z.shiftr size 1) (idx + 1) = Ret r /\
      r <> NULL /\ asize <= GET_SIZE (mem st) (HDRP r)).
  { intros Hne. apply IH; try assumption; try lia.
    intros j Hj. apply Hch. lia. }
  destruct (size <=? 1) eqn:Es; cbn [andb].
  - destruct (Hch idx) as [Hc Hlen]; [lia | subst size; lia|].
    destruct (GET (mem st) (heap_listp st + idx * WSIZE) =? NULL) eqn:Eh; cbn [negb].
    + apply Hrec. intros ->.
      assert (Hnil : lists i = []).
      { destruct (lists i) as [|x l]; [reflexivity|].
        cbn in Hc. destruct Hc as (Hx & Hxn & _). unfold NULL in *. lia. }
      rewrite Hnil in Hb. destruct Hb.
    + destruct (fit_in_list_chain (mem st) asize _ fuel _ Hc Hlen)
        as (r & Hr & Hcase).
      rewrite Hr. cbn [mbind result_mbind result_bind].
      destruct Hcase as [[-> Hall]|[Hin Hsz]].
      * change (negb (NULL =? NULL)) with false. cbv iota.
        apply Hrec. intros ->. specialize (Hall b Hb). lia.
      * pose proof (chain_nonnull _ _ _ _ Hc Hin) as Hrn.
        destruct (r =? NULL) eqn:Er; [unfold NULL in *; lia|]. cbn [negb].
        exists r. auto.
  - apply Hrec. intros ->. subst size. lia.
Qed.

Lemma shiftr_small_iff_log2 a j :
  0 <= a -> 0 <= j -> (Z.shiftr a j <= 1 <-> Z.log2 a <= j).
Proof.
  intros Ha Hj. destruct (Z.eq_dec a 0) as [->|Hne].
  - rewrite Z.shiftr_0_l. cbn. lia.
  - assert (0 < a) by lia.
    pose proof (Z.shiftr_nonneg a j) as Hnn.
    split; intros H1.
    + destruct (Z.le_gt_cases (Z.log2 a) j) as [|Hgt]; [assumption|]. exfalso.
      assert (1 <= Z.log2 (Z.shiftr a j)).
      { rewrite Z.log2_shiftr by lia. lia. }
      assert (Z.log2 (Z.shiftr a j) <= Z.log2 1) by (apply Z.log2_le_mono; lia).
      change (Z.log2 1) with 0 in *. lia.
    + assert (Hl : Z.log2 (Z.shiftr a j) = 0).
      { rewrite Z.log2_shiftr by lia. lia. }
      destruct (Z.le_gt_cases (Z.shiftr a j) 1) as [|Hgt]; [assumption|].
      assert (1 <= Z.log2 (Z.shiftr a j)) by (apply Z.log2_le_pow2; lia). lia.
Qed.

(** X8: for a request below 2^15 bytes the escalation through the classes
    works.  If the lists from the class of the request upwards are
    null-terminated chains and one of them holds a block that is large
    enough, [find_fit] returns a block that is large enough. *)
Theorem find_fit_finds_small (fuel : nat) (st : state) (asize : Z)
    (lists : Z -> list Z) (i b : Z) :
  0 <= asize < 2 ^ 15 ->
  snd (class_of asize) <= i < MAXCLASS ->
  (forall j, snd (class_of asize) <= j < MAXCLASS ->
     chain (mem st) (GET (mem st) (heap_listp st + j * WSIZE)) (lists j) /\
     (length (lists j) < fuel)%nat) ->
  In b (lists i) -> asize <= GET_SIZE (mem st) (HDRP b) ->
  exists r, find_fit fuel st asize = Ret r /\
    r <> NULL /\ asize <= GET_SIZE (mem st) (HDRP r).
Proof.
  intros Ha Hi Hch Hb Hbs.
  assert (Hk : snd (class_of asize) = Z.log2 asize).
  { unfold class_of. rewrite class_loop_log2 by lia.
    assert (Z.log2 asize < 15).
    { destruct (Z.eq_dec asize 0) as [->|]; [cbn; lia|].
      apply Z.log2_lt_pow2; lia. }
    lia. }
  rewrite Hk in *. pose proof (Z.log2_nonneg asize) as Hlog.
  unfold find_fit.
  apply (find_fit_loop_finds fuel st asize lists i b 15 asize 0);
    try assumption; try lia.
  - symmetry. apply Z.shiftr_0_r.
  - intros j Hj Hsh. apply Hch. apply shiftr_small_iff_log2 in Hsh; lia.
  - unfold MAXCLASS in *. lia.
  - apply shiftr_small_iff_log2; lia.
Qed.

Lemma list_nodes_chain fuel : forall m h,
  (length (list_nodes fuel m h) < fuel)%nat -> chain m h (list_nodes fuel m h).
Proof.
  induction fuel as [|fuel IH]; intros m h Hlen; [cbn in Hlen; lia|].
  cbn [list_nodes] in *. destruct (h =? NULL) eqn:E.
  - cbn. unfold NULL in *. lia.
  - cbn [chain length] in *. split; [reflexivity|].
    split; [unfold NULL in *; lia|]. apply IH. lia.
Qed.

Lemma buckets_are_chains fuel st :
  forallb (fun i => (length (bucket fuel st i) <? fuel)%nat) classes = true ->
  forall j, 0 <= j < MAXCLASS ->
    chain (mem st) (GET (mem st) (heap_listp st + j * WSIZE)) (bucket fuel st j) /\
    (length (bucket fuel st j) < fuel)%nat.
Proof.
  rewrite forallb_forall. intros Hall j Hj.
  assert (Hin : In j classes).
  { unfold classes, MAXCLASS in *.
    assert (j = 0 \/ j = 1 \/ j = 2 \/ j = 3 \/ j = 4 \/ j = 5 \/ j = 6 \/ j = 7
            \/ j = 8 \/ j = 9 \/ j = 10 \/ j = 11 \/ j = 12 \/ j = 13 \/ j = 14)
      as Hcases by lia.
    cbn. intuition auto. }
  specialize (Hall j Hin). apply Nat.ltb_lt in Hall.
  split; [|exact Hall]. apply list_nodes_chain. exact Hall.
Qed.

Lemma find_fit_finds_small_witness :
  exists r, find_fit 64 (unwrap run_two_frees) 24 = Ret r /\
    r <> NULL /\ 24 <= GET_SIZE (mem (unwrap run_two_frees)) (HDRP r).
Proof.
  apply (find_fit_finds_small 64 (unwrap run_two_frees) 24
           (bucket 64 (unwrap run_two_frees)) 4 1104).
  - by_eval.
  - by_eval.
  - intros j Hj. apply buckets_are_chains; [by_eval|].
    vm_compute in Hj. unfold MAXCLASS. destruct Hj as [Hj1 Hj2].
    split; [|exact Hj2]. intros Hc. apply Hj1.
    destruct j; try reflexivity; discriminate Hc.
  - vm_compute. left. reflexivity.
  - by_eval.
Defined.

(** * What the operations leave in place *)

Lemma heap_grows_refl st : heap_grows st st.
Proof. unfold heap_grows. repeat split; try lia. by rewrite Z.sub_diag. Qed.

Lemma heap_grows_trans st1 st2 st3 :
  heap_grows st1 st2 -> heap_grows st2 st3 -> heap_grows st1 st3.
Proof.
  unfold heap_grows. intros (A1 & A2 & A3 & A4) (B1 & B2 & B3 & B4).
  repeat split; try congruence; try lia.
  replace (mem_brk st3 - mem_brk st1)
    with ((mem_brk st3 - mem_brk st2) + (mem_brk st2 - mem_brk st1)) by lia.
  dlia.
Qed.

Lemma heap_grows_set_mem st m : heap_grows st (set_mem st m).
Proof. unfold heap_grows. cbn. repeat split; try lia. by rewrite Z.sub_diag. Qed.

Lemma same_break_set_mem st m : mem_brk (set_mem st m) = mem_brk st.
Proof. reflexivity. Qed.

Lemma insert_list_grows fuel st bp size st' :
  insert_list fuel st bp size = Ret st' ->
  heap_grows st st' /\ mem_brk st' = mem_brk st.
Proof.
  unfold insert_list. destruct (class_of size). intros H.
  apply bind_Ret in H as ([last cur] & _ & H). inversion H.
  split; [apply heap_grows_set_mem | reflexivity].
Qed.

Lemma remove_list_grows st bp :
  heap_grows st (remove_list st bp) /\ mem_brk (remove_list st bp) = mem_brk st.
Proof.
  unfold remove_list. destruct (class_of _).
  split; [apply heap_grows_set_mem | reflexivity].
Qed.

Lemma coalesce_grows fuel st bp size st' r :
  coalesce fuel st bp size = Ret (st', r) ->
  heap_grows st st' /\ mem_brk st' = mem_brk st.
Proof.
  unfold coalesce. intros H.
  repeat match type of H with
  | context [if ?c then _ else _] => destruct c
  end;
  apply bind_Ret in H as (st2 & Hi & H); inversion H; subst;
  apply insert_list_grows in Hi as [Hg Hb]; rewrite Hb; cbn [mem_brk set_mem];
  rewrite ?(proj2 (remove_list_grows _ _)); (split; [|reflexivity]);
  (eapply heap_grows_trans; [|exact Hg]);
  repeat first [ apply heap_grows_refl
               | apply heap_grows_set_mem
               | apply remove_list_grows
               | eapply heap_grows_trans; [apply remove_list_grows|]
               | eapply heap_grows_trans; [|apply heap_grows_set_mem] ].
Qed.

Lemma extend_heap_grows fuel st size st' r :
  extend_heap fuel st size = Ret (st', r) -> heap_grows st st'.
Proof.
  unfold extend_heap. intros H.
  destruct (mem_sbrk st (ALIGN size)) as [[st1 bp]|] eqn:E.
  - apply coalesce_grows in H as [Hg _].
    eapply heap_grows_trans; [|exact Hg].
    eapply heap_grows_trans; [|apply heap_grows_set_mem].
    unfold mem_sbrk in E. destruct (_ <=? _); inversion E; subst.
    unfold heap_grows. cbn. pose proof (ALIGN_eq size) as Ha.
    assert (0 <= ALIGN size) by (rewrite Ha; dlia).
    repeat split; try lia.
    replace (mem_brk st + ALIGN size - mem_brk st) with (ALIGN size) by lia.
    rewrite Ha. dlia.
  - inversion H; subst. apply heap_grows_refl.
Qed.

Lemma place_grows fuel st bp asize st' r :
  place fuel st bp asize = Ret (st', r) ->
  heap_grows st st' /\ mem_brk st' = mem_brk st.
Proof.
  unfold place. intros H.
  destruct (remove_list_grows st bp) as [Hr Hrb].
  destruct (_ <? 2 * DSIZE).
  - inversion H; subst. cbn [mem_brk set_mem]. split; [|exact Hrb].
    eapply heap_grows_trans; [exact Hr | apply heap_grows_set_mem].
  - destruct (asize <? 96); apply bind_Ret in H as (st1 & Hi & H);
      inversion H; subst; apply insert_list_grows in Hi as [Hg Hb];
      cbn [mem_brk set_mem] in *; (split; [|congruence]);
      (eapply heap_grows_trans; [exact Hr|]);
      (eapply heap_grows_trans; [apply heap_grows_set_mem|]);
      first [exact Hg | eapply heap_grows_trans; [exact Hg | apply heap_grows_set_mem]].
Qed.

Lemma mm_malloc_grows fuel st size st' p :
  mm_malloc fuel st size = Ret (st', p) -> heap_grows st st'.
Proof.
  unfold mm_malloc. intros H.
  destruct (size =? 0); [inversion H; subst; apply heap_grows_refl|].
  apply bind_Ret in H as (bp & _ & H).
  destruct (bp =? NULL); cbn in H.
  - apply bind_Ret in H as ([st1 bp1] & Hext & H).
    apply extend_heap_grows in Hext.
    destruct (bp1 =? NULL); [inversion H; by subst|].
    apply place_grows in H as [Hg _]. eapply heap_grows_trans; eassumption.
  - by apply place_grows in H as [Hg _].
Qed.

Lemma mm_free_grows fuel st bp st' :
  mm_free fuel st bp = Ret st' ->
  heap_grows st st' /\ mem_brk st' = mem_brk st.
Proof.
  unfold mm_free. intros H. apply bind_Ret in H as ([st1 r] & Hc & H).
  inversion H; subst. apply coalesce_grows in Hc as [Hg Hb].
  split; [|exact Hb].
  eapply heap_grows_trans; [apply heap_grows_set_mem | exact Hg].
Qed.

Lemma mm_realloc_grows fuel st ptr size st' p :
  mm_realloc fuel st ptr size = Ret (st', p) -> heap_grows st st'.
Proof.
  unfold mm_realloc. intros H.
  destruct (size =? 0); [inversion H; subst; apply heap_grows_refl|].
  cbv zeta in H.
  destruct (0 <=? _); [inversion H; subst; apply heap_grows_refl|].
  destruct (_ || _).
  - apply bind_Ret in H as ([[st1 remain] failed] & Hgrow & H).
    assert (Hg1 : heap_grows st st1).
    { destruct (_ <? 0).
      - apply bind_Ret in Hgrow as ([st2 bp] & Hext & Hgrow).
        apply extend_heap_grows in Hext.
        destruct (bp =? NULL); inversion Hgrow; by subst.
      - inversion Hgrow; subst. apply heap_grows_refl. }
    destruct failed; inversion H; subst; [exact Hg1|].
    eapply heap_grows_trans; [exact Hg1|].
    eapply heap_grows_trans; [apply remove_list_grows | apply heap_grows_set_mem].
  - apply bind_Ret in H as ([st1 newptr] & Hm & H).
    apply mm_malloc_grows in Hm.
    apply bind_Ret in H as (m1 & _ & H).
    apply bind_Ret in H as (st2 & Hf & H). inversion H; subst.
    apply mm_free_grows in Hf as [Hg _].
    eapply heap_grows_trans; [exact Hm|].
    eapply heap_grows_trans; [apply heap_grows_set_mem | exact Hg].
Qed.

(** X9: no operation moves the class table or the limit of the memory
    system, lowers the break, or moves it by anything but a multiple of 8;
    [mm_free] does not move the break at all (the heap never shrinks). *)
Theorem operations_only_grow_the_heap (fuel : nat) (st st' : state) (ptr size p : Z) :
  (mm_malloc fuel st size = Ret (st', p) -> heap_grows st st') /\
  (mm_free fuel st ptr = Ret st' -> heap_grows st st' /\ mem_brk st' = mem_brk st) /\
  (mm_realloc fuel st ptr size = Ret (st', p) -> heap_grows st st').
Proof.
  split; [apply mm_malloc_grows|]. split; [apply mm_free_grows | apply mm_realloc_grows].
Qed.

(** * Running out of memory *)

(** X10: when no free block fits and the memory system cannot supply the
    extension, [mm_malloc] returns the null pointer and the state is the
    one it was called in. *)
Theorem malloc_out_of_memory_is_noop (fuel : nat) (st : state) (size : Z) :
  size <> 0 ->
  find_fit fuel st (adjust size) = Ret NULL ->
  mem_max_addr st < mem_brk st + ALIGN (MAX (adjust size) CHUNKSIZE) ->
  mm_malloc fuel st size = Ret (st, NULL).
Proof.
  intros Hs Hfit Hmem. apply malloc_growth_failure; try assumption.
  unfold mem_sbrk. destruct (_ <=? _) eqn:E; [lia | reflexivity].
Qed.

(** X11: on the in-place path of [mm_realloc] - the next block is free or
    is the epilogue, and block and next block together are too small -
    a failure of the memory system makes the call return the null pointer
    with the state it was called in: the block is neither freed nor
    resized. *)
Theorem realloc_in_place_out_of_memory_is_noop (fuel : nat) (st : state) (ptr size : Z) :
  let m := mem st in
  let cur := GET_SIZE m (HDRP ptr) in
  let next := GET_SIZE m (HDRP (NEXT_BLKP m ptr)) in
  let remain := s32 (cur + next - adjust size) in
  size <> 0 ->
  s32 (cur - adjust size) < 0 ->
  GET_ALLOC m (HDRP (NEXT_BLKP m ptr)) = 0 \/ next = 0 ->
  remain < 0 ->
  mem_max_addr st < mem_brk st + ALIGN (w32 (MAX (- remain) CHUNKSIZE)) ->
  mm_realloc fuel st ptr size = Ret (st, NULL).
Proof.
  intros m cur next remain Hs Hsmall Hnext Hrem Hmem.
  unfold mm_realloc. destruct (size =? 0) eqn:E; [lia|]. cbv zeta.
  fold m. fold cur. destruct (0 <=? s32 (cur - adjust size)) eqn:E1; [lia|].
  fold next.
  destruct ((GET_ALLOC m (HDRP (NEXT_BLKP m ptr)) =? 0) || (next =? 0)) eqn:E2.
  - fold remain. destruct (remain <? 0) eqn:E3; [|lia].
    unfold extend_heap, mem_sbrk.
    destruct (mem_brk st + ALIGN (w32 (MAX (- remain) CHUNKSIZE))
              <=? mem_max_addr st) eqn:E4; [lia|].
    reflexivity.
  - apply orb_false_iff in E2 as [A B]. destruct Hnext; lia.
Qed.

(** X12: the difference between block size and adjusted size is kept in
    an [int].  When the adjusted size exceeds the block size by more than
    2^31, the difference wraps to a non-negative value and [mm_realloc]
    returns the same pointer with nothing changed, although the block is
    too small. *)
Theorem realloc_huge_request_returns_same_block (fuel : nat) (st : state) (p size : Z) :
  size <> 0 ->
  2 ^ 31 < adjust size - GET_SIZE (mem st) (HDRP p) ->
  mm_realloc fuel st p size = Ret (st, p).
Proof.
  intros Hs Hbig. unfold mm_realloc. destruct (size =? 0) eqn:E; [lia|]. cbv zeta.
  pose proof (adjust_nonneg size) as Ha.
  pose proof (GET_SIZE_range (mem st) (HDRP p)) as Hc.
  assert (Hrem : 0 <= s32 (GET_SIZE (mem st) (HDRP p) - adjust size)).
  { unfold s32.
    assert (w32 (GET_SIZE (mem st) (HDRP p) - adjust size)
            = GET_SIZE (mem st) (HDRP p) - adjust size + 2 ^ 32) as -> by dlia.
    change (2 ^ 31) with 2147483648 in *. change (2 ^ 32) with 4294967296 in *.
    destruct (_ <? _) eqn:E2; lia. }
  destruct (0 <=? _) eqn:E3; [reflexivity | lia].
Qed.

Lemma realloc_huge_request_witness :
  mm_realloc 64 heap_one_block 1072 (3 * 2 ^ 30) = Ret (heap_one_block, 1072).
Proof. apply realloc_huge_request_returns_same_block; by_eval. Defined.

Lemma operations_only_grow_witness : heap_grows heap_after_init heap_one_block.
Proof.
  apply (proj1 (operations_only_grow_the_heap 64 heap_after_init heap_one_block 0 8 1072)).
  by_eval.
Defined.

Lemma malloc_out_of_memory_witness :
  mm_malloc 64 heap_cramped_one_block 5000 = Ret (heap_cramped_one_block, NULL).
Proof. apply malloc_out_of_memory_is_noop; by_eval. Defined.

Lemma realloc_in_place_out_of_memory_witness :
  mm_realloc 64 heap_cramped_one_block 1072 5000 = Ret (heap_cramped_one_block, NULL).
Proof.
  apply realloc_in_place_out_of_memory_is_noop;
    first [by_eval | left; by_eval].
Defined.

Lemma next_prev_round_trip_witness :
  NEXT_BLKP (mem heap_after_init) 1072 = 1072 + 4096 /\
  FTRP (mem heap_after_init) 1072
    = HDRP (NEXT_BLKP (mem heap_after_init) 1072) - WSIZE /\
  PREV_BLKP (mem heap_after_init) (NEXT_BLKP (mem heap_after_init) 1072) = 1072.
Proof.
  apply (next_prev_round_trip (mem heap_after_init) 1072 4096 0);
    first [by_eval | left; reflexivity].
Defined.

(** * Growing a block in place *)

(** X13: when the block after [ptr] is free and the two together are
    large enough, [mm_realloc] returns [ptr] without moving the break: the
    next block is unlinked from its free list and absorbed whole (there is
    no split), so [ptr]'s block is tagged allocated with the sum of the two
    sizes, and no other word changes after the unlinking. *)
Theorem realloc_absorbs_free_successor (fuel : nat) (st : state) (ptr size : Z) :
  let m := mem st in
  let cur := GET_SIZE m (HDRP ptr) in
  let next := GET_SIZE m (HDRP (NEXT_BLKP m ptr)) in
  size <> 0 ->
  cur < adjust size <= cur + next ->
  cur + next < 2 ^ 31 ->
  GET_ALLOC m (HDRP (NEXT_BLKP m ptr)) = 0 ->
  exists st',
    mm_realloc fuel st ptr size = Ret (st', ptr) /\
    tagged (mem st') ptr (cur + next) 1 /\
    mem_brk st' = mem_brk st /\
    forall a, a <> HDRP ptr -> a <> ptr + (cur + next) - DSIZE ->
      GET (mem st') a = GET (mem (remove_list st (NEXT_BLKP m ptr))) a.
Proof.
  intros m cur next Hs Hfit Hint Hfree.
  pose proof (GET_SIZE_range m (HDRP ptr)) as Hc.
  pose proof (GET_SIZE_mod8 m (HDRP ptr)) as Hc8.
  pose proof (GET_SIZE_range m (HDRP (NEXT_BLKP m ptr))) as Hn.
  pose proof (GET_SIZE_mod8 m (HDRP (NEXT_BLKP m ptr))) as Hn8.
  pose proof (adjust_nonneg size) as Ha.
  fold cur in Hc, Hc8. fold next in Hn, Hn8.
  change (2 ^ 31) with 2147483648 in *. change (2 ^ 32) with 4294967296 in *.
  assert (R1 : s32 (cur - adjust size) = cur - adjust size).
  { unfold s32.
    assert (w32 (cur - adjust size) = cur - adjust size + 4294967296) as -> by dlia.
    change (2 ^ 31) with 2147483648. change (2 ^ 32) with 4294967296.
    destruct (_ <? _) eqn:E; lia. }
  assert (R2 : s32 (cur + next - adjust size) = cur + next - adjust size).
  { unfold s32. rewrite w32_id by (change (2 ^ 32) with 4294967296; lia).
    change (2 ^ 31) with 2147483648.
    destruct (_ <? _) eqn:E; lia. }
  unfold mm_realloc. destruct (size =? 0) eqn:E; [lia|]. cbv zeta.
  fold m. fold cur. rewrite R1.
  destruct (0 <=? cur - adjust size) eqn:E1; [lia|].
  rewrite Hfree. change ((0 =? 0) || _) with true. cbv iota.
  fold next. rewrite R2.
  destruct (cur + next - adjust size <? 0) eqn:E2; [lia|].
  cbn [mbind result_mbind result_bind]. cbv iota.
  replace (w32 (adjust size + (cur + next - adjust size))) with (cur + next)
    by (rewrite w32_id; [lia | change (2 ^ 32) with 4294967296; lia]).
  assert (H8 : (cur + next) mod 8 = 0) by dlia.
  assert (Hr : 0 <= cur + next < 2 ^ 32) by (change (2 ^ 32) with 4294967296; lia).
  unfold FTRP. rewrite GET_SIZE_PUT_tag by auto.
  eexists. split; [reflexivity|]. cbn [mem mem_brk set_mem].
  split; [|split].
  - split; repeat get_step; reflexivity.
  - apply remove_list_brk.
  - intros a A1 A2. do 2 rewrite GET_PUT_ne by congruence. reflexivity.
Qed.

Lemma realloc_absorbs_witness :
  exists st',
    mm_realloc 64 heap_one_block 1072 100 = Ret (st', 1072) /\
    tagged (mem st') 1072
      (GET_SIZE (mem heap_one_block) (HDRP 1072)
       + GET_SIZE (mem heap_one_block) (HDRP (NEXT_BLKP (mem heap_one_block) 1072))) 1.
Proof.
  destruct (realloc_absorbs_free_successor 64 heap_one_block 1072 100)
    as (st' & H1 & H2 & _); [by_eval | by_eval | by_eval | by_eval |].
  exists st'. split; [exact H1 | exact H2].
Defined.

(** * Coalescing *)

Lemma prev_below m bp :
  PREV_BLKP m bp <= bp /\ (bp - PREV_BLKP m bp) mod 8 = 0.
Proof.
  unfold PREV_BLKP. pose proof (GET_SIZE_range m (bp - DSIZE)).
  pose proof (GET_SIZE_mod8 m (bp - DSIZE)). split; [lia | dlia].
Qed.

(** X14: [coalesce] returns the block itself when the previous block is
    allocated, and otherwise a pointer below it, by a multiple of 8; it
    never returns a pointer above the block, and it does not move the
    break. *)
Theorem coalesce_returns_block_or_predecessor
    (fuel : nat) (st st' : state) (bp size r : Z) :
  coalesce fuel st bp size = Ret (st', r) ->
  r <= bp /\ (bp - r) mod 8 = 0 /\
  (GET_ALLOC (mem st) (HDRP (PREV_BLKP (mem st) bp)) <> 0 -> r = bp) /\
  mem_brk st' = mem_brk st.
Proof.
  intros H. pose proof (coalesce_grows _ _ _ _ _ _ H) as [_ Hb].
  unfold coalesce in H.
  destruct (GET_ALLOC (mem st) (HDRP (PREV_BLKP (mem st) bp)) =? 0) eqn:Ep;
    cbn [negb andb] in H.
  - apply Z.eqb_eq in Ep.
    destruct (GET_ALLOC (mem st) (HDRP (NEXT_BLKP (mem st) bp)) =? 0) eqn:En;
      cbn [negb andb] in H;
      apply bind_Ret in H as (st2 & _ & H); inversion H; subst;
      match goal with |- PREV_BLKP ?m ?x <= _ /\ _ =>
        destruct (prev_below m x) as [P1 P2] end;
      (split; [exact P1|]); (split; [exact P2|]);
      (split; [intros Hne; contradiction | exact Hb]).
  - destruct (GET_ALLOC (mem st) (HDRP (NEXT_BLKP (mem st) bp)) =? 0) eqn:En;
      cbn [negb andb] in H;
      apply bind_Ret in H as (st2 & _ & H); inversion H; subst;
      (split; [lia|]); (split; [rewrite Z.sub_diag; reflexivity|]);
      (split; [reflexivity | exact Hb]).
Qed.

Lemma coalesce_returns_witness :
  let st' := state_of (coalesce 64 heap_one_block 1072 16) in
  1072 <= 1072 /\ (1072 - 1072) mod 8 = 0 /\
  (GET_ALLOC (mem heap_one_block) (HDRP (PREV_BLKP (mem heap_one_block) 1072)) <> 0
   -> 1072 = 1072) /\
  mem_brk st' = mem_brk heap_one_block.
Proof.
  apply (coalesce_returns_block_or_predecessor 64 heap_one_block
           (state_of (coalesce 64 heap_one_block 1072 16)) 1072 16 1072).
  by_eval.
Defined.

(** * Initialisation *)

(** X15: with room for 18 words and one chunk, [mm_init] returns 0 and
    builds this heap at the old break [p]: the class table at [p] with
    every list empty except the list of class 12, an allocated prologue of
    8 bytes, one free block of 4096 bytes at [p + 72] which is the only
    block of the class-12 list, and the epilogue header in the last word
    below the new break. *)
Theorem mm_init_builds_heap (fuel : nat) (st : state) :
  let p := mem_brk st in
  (0 < fuel)%nat ->
  0 <= p -> p + 72 + 4096 <= mem_max_addr st -> mem_max_addr st <= 2 ^ 32 ->
  exists st',
    mm_init fuel st = Ret (st', 0) /\
    heap_listp st' = p /\
    mem_brk st' = p + 72 + 4096 /\
    (forall i, 0 <= i < MAXCLASS -> i <> 12 -> GET (mem st') (p + i * WSIZE) = NULL) /\
    GET (mem st') (p + 12 * WSIZE) = p + 72 /\
    PRED (mem st') (p + 72) = NULL /\ SUCC (mem st') (p + 72) = NULL /\
    tagged (mem st') (p + 64) 8 1 /\
    tagged (mem st') (p + 72) 4096 0 /\
    GET (mem st') (HDRP (mem_brk st')) = PACK 0 1.
Proof.
  intros p Hfuel Hp Hle Hmax. unfold mm_init, mem_sbrk. fold p.
  change ((3 + MAXCLASS) * WSIZE) with 72.
  destruct (p + 72 <=? mem_max_addr st) eqn:E1; [|lia].
  cbn [mem heap_listp mem_brk mem_max_addr].
  unfold extend_heap, mem_sbrk. change (ALIGN CHUNKSIZE) with 4096.
  cbn [mem heap_listp mem_brk mem_max_addr set_mem].
  destruct (p + 72 + 4096 <=? mem_max_addr st) eqn:E2; [|lia].
  cbn [mem heap_listp mem_brk mem_max_addr set_mem].
  unfold FTRP, NEXT_BLKP. fold (HDRP (p + 72)).
  repeat size_step.
  rewrite coalesce_between_allocated; cbn [mem set_mem].
  2: { unfold PREV_BLKP. repeat size_step. repeat alloc_step. reflexivity. }
  2: { unfold NEXT_BLKP. fold (HDRP (p + 72)). repeat size_step.
       repeat alloc_step. reflexivity. }
  unfold insert_list. change (class_of 4096) with (1, 12).
  cbv beta iota zeta. cbn [mem heap_listp set_mem].
  set (m7 := PUT _ (HDRP (p + 72 + 4096)) _).
  assert (Hslot : forall i, 0 <= i < MAXCLASS -> GET m7 (p + i * WSIZE) = 0).
  { intros i Hi. unfold m7. repeat word_step. apply clear_classes_zero. addr_lia. }
  rewrite (Hslot 12) by addr_lia.
  destruct fuel as [|fuel]; [lia|]. cbn [search_pos].
  change (negb (0 =? NULL) && _) with false. cbv iota.
  cbn [mbind result_mbind result_bind].
  destruct (p + 72 =? NULL) eqn:E3; [unfold NULL in *; lia|].
  eexists. split; [reflexivity|]. cbn [mem heap_listp mem_brk set_mem].
  split; [reflexivity|]. split; [reflexivity|].
  unfold link_in, PRED, SUCC, PRED_PTR, SUCC_PTR, tagged.
  change (negb (NULL =? NULL)) with false. change (negb (0 =? NULL)) with false.
  cbv iota. unfold m7.
  split; [|split; [|split; [|split; [|split; [|split]]]]].
  - intros i Hi Hne. repeat word_step. apply clear_classes_zero. addr_lia.
  - repeat word_step. apply w32_id. dlia.
  - repeat word_step. reflexivity.
  - repeat word_step. reflexivity.
  - split; repeat word_step; reflexivity.
  - split; repeat word_step; reflexivity.
  - repeat word_step. reflexivity.
Qed.

Lemma mm_init_builds_heap_witness :
  exists st', mm_init 64 fresh = Ret (st', 0) /\
    mem_brk st' = mem_brk fresh + 72 + 4096 /\
    tagged (mem st') (mem_brk fresh + 72) 4096 0.
Proof.
  destruct (mm_init_builds_heap 64 fresh)
    as (st' & H1 & _ & H2 & _ & _ & _ & _ & _ & H3 & _);
    [apply Nat.lt_0_succ | by_eval | by_eval | by_eval |].
  exists st'. split; [exact H1|]. split; [exact H2 | exact H3].
Defined.

(** X16: without room for 18 words and one chunk, [mm_init] returns -1.
    When not even the 18 words fit, nothing was written and the break did
    not move; when they fit but the chunk does not, the 18 words stay
    taken: the break is 72 bytes higher and [heap_listp] is set. *)
Theorem mm_init_without_room (fuel : nat) (st : state) :
  mem_max_addr st < mem_brk st + 72 + 4096 ->
  exists st',
    mm_init fuel st = Ret (st', -1) /\
    (mem_max_addr st < mem_brk st + 72 ->
       mem st' = mem st /\ mem_brk st' = mem_brk st) /\
    (mem_brk st + 72 <= mem_max_addr st ->
       heap_listp st' = mem_brk st /\ mem_brk st' = mem_brk st + 72).
Proof.
  intros Hle. unfold mm_init, mem_sbrk.
  change ((3 + MAXCLASS) * WSIZE) with 72.
  destruct (mem_brk st + 72 <=? mem_max_addr st) eqn:E1.
  - cbn [mem heap_listp mem_brk mem_max_addr].
    unfold extend_heap, mem_sbrk. change (ALIGN CHUNKSIZE) with 4096.
    cbn [mem heap_listp mem_brk mem_max_addr set_mem].
    destruct (mem_brk st + 72 + 4096 <=? mem_max_addr st) eqn:E2; [lia|].
    eexists. split; [reflexivity|]. cbn [mem heap_listp mem_brk set_mem].
    split; [intros; lia | intros _; split; reflexivity].
  - eexists. split; [reflexivity|]. cbn [mem mem_brk].
    split; [intros _; split; reflexivity | intros; lia].
Qed.

Lemma mm_init_without_room_witness :
  exists st', mm_init 64 (mkState ∅ 0 1000 2000) = Ret (st', -1).
Proof.
  destruct (mm_init_without_room 64 (mkState ∅ 0 1000 2000)) as (st' & H & _);
    [by_eval|].
  exists st'. exact H.
Defined.

Lemma mm_init_aligned_witness :
  lists_aligned heap_after_init /\ aligned8 (mem_brk heap_after_init).
Proof.
  apply (mm_init_aligned 64 fresh); [apply Nat.lt_0_succ | by_eval..].
Defined.

(** * Freeing a block between allocated blocks, and reusing it *)

Lemma insert_list_at_head fuel st bp size :
  let slot := heap_listp st + snd (class_of size) * WSIZE in
  let head := GET (mem st) slot in
  (0 < fuel)%nat ->
  snd (class_of size) < MAXCLASS - 1 ->
  (head <> NULL -> 0 < GET_SIZE (mem st) (HDRP head)) ->
  insert_list fuel st bp size
  = Ret (set_mem st (link_in (mem st) slot bp NULL head)).
Proof.
  intros slot head Hf Hidx Hhead.
  destruct (class_of size) as [s i] eqn:Hc. cbn [snd] in *.
  assert (Hs : s <= 1).
  { apply (class_loop_shifted 14 size 0 s i Hc Hidx). unfold MAXCLASS in Hidx. lia. }
  unfold insert_list. rewrite Hc. cbv zeta. fold slot. fold head.
  rewrite search_pos_stops by assumption. reflexivity.
Qed.

Lemma class_of_small s :
  0 <= s < 2 ^ 14 -> snd (class_of s) = Z.log2 s /\ Z.log2 s < 14.
Proof.
  intros Hs. unfold class_of. rewrite class_loop_log2 by lia.
  assert (Z.log2 s < 14).
  { destruct (Z.eq_dec s 0) as [->|]; [cbn; lia|]. apply Z.log2_lt_pow2; lia. }
  pose proof (Z.log2_nonneg s). lia.
Qed.

(** [mm_free] of a block whose two neighbours are allocated: the tags are
    cleared and the block is handed to [insert_list]. *)
Lemma mm_free_isolated fuel st bp :
  let m := mem st in
  let s := GET_SIZE m (HDRP bp) in
  16 <= s ->
  0 < GET_SIZE m (bp - DSIZE) ->
  GET_ALLOC m (HDRP (PREV_BLKP m bp)) = 1 ->
  GET_ALLOC m (HDRP (NEXT_BLKP m bp)) = 1 ->
  mm_free fuel st bp
  = insert_list fuel
      (set_mem st (PUT (PUT m (HDRP bp) (PACK s 0)) (bp + s - DSIZE) (PACK s 0)))
      bp s.
Proof.
  intros m s Hs Hp Hpa Hna.
  pose proof (GET_SIZE_range m (HDRP bp)) as Hr.
  pose proof (GET_SIZE_mod8 m (HDRP bp)) as H8. fold s in Hr, H8.
  pose proof (GET_SIZE_range m (bp - DSIZE)) as Hpr.
  unfold mm_free. fold m. fold s. unfold FTRP. repeat size_step.
  rewrite coalesce_between_allocated; cbn [mem set_mem].
  - destruct (insert_list _ _ _ _); reflexivity.
  - unfold PREV_BLKP in *. repeat size_step.
    rewrite !GET_ALLOC_PUT_ne by addr_lia. exact Hpa.
  - unfold NEXT_BLKP in *. fold (HDRP bp) in *. repeat size_step. fold s in Hna.
    rewrite !GET_ALLOC_PUT_ne by addr_lia. exact Hna.
Qed.

Lemma find_fit_loop_first fuel st asize k n : forall size idx,
  size = Z.shiftr asize idx -> 0 <= idx <= k -> k < idx + Z.of_nat n ->
  k < MAXCLASS ->
  (forall j, idx <= j < k -> 1 < Z.shiftr asize j) ->
  Z.shiftr asize k <= 1 ->
  let head := GET (mem st) (heap_listp st + k * WSIZE) in
  head <> NULL -> asize <= GET_SIZE (mem st) (HDRP head) ->
  find_fit_loop n (S fuel) st asize size idx = Ret head.
Proof.
  induction n as [|n IH]; intros size idx Hsize Hidx Hn Hk Hskip Hscan head Hh Hfit;
    [lia|].
  cbn [find_fit_loop]. destruct (idx <? MAXCLASS) eqn:E; [|lia].
  destruct (Z.eq_dec idx k) as [->|Hne].
  - rewrite Hsize. destruct (Z.shiftr asize k <=? 1) eqn:E1; [|lia].
    fold head. destruct (head =? NULL) eqn:E2; [unfold NULL in *; lia|].
    cbn [negb andb fit_in_list]. rewrite E2. cbn [negb andb].
    destruct (GET_SIZE (mem st) (HDRP head) <? asize) eqn:E3; [lia|].
    cbn [mbind result_mbind result_bind]. rewrite E2. reflexivity.
  - pose proof (Hskip idx ltac:(lia)) as Hhere. rewrite <- Hsize in Hhere.
    destruct (size <=? 1) eqn:E1; [lia|]. cbn [andb].
    apply IH; try assumption; try lia.
    + subst size. apply Z.shiftr_shiftr. lia.
    + intros j Hj. apply Hskip. lia.
Qed.

Lemma mm_free_isolated_state fuel st bp :
  let m := mem st in
  let s := GET_SIZE m (HDRP bp) in
  let slot := heap_listp st + snd (class_of s) * WSIZE in
  let head := GET m slot in
  (0 < fuel)%nat ->
  16 <= s < 2 ^ 14 ->
  0 < GET_SIZE m (bp - DSIZE) ->
  GET_ALLOC m (HDRP (PREV_BLKP m bp)) = 1 ->
  GET_ALLOC m (HDRP (NEXT_BLKP m bp)) = 1 ->
  heap_listp st + MAXCLASS * WSIZE <= HDRP bp ->
  (head = NULL \/
   (0 < GET_SIZE m (HDRP head) /\
    heap_listp st + MAXCLASS * WSIZE <= HDRP head /\
    (head + 16 <= bp \/ bp + s <= head))) ->
  mm_free fuel st bp
  = Ret (set_mem st
           (link_in (PUT (PUT m (HDRP bp) (PACK s 0)) (bp + s - DSIZE) (PACK s 0))
              slot bp NULL head)).
Proof.
  intros m s slot head Hf Hs Hp Hpa Hna Htab Hhead.
  pose proof (class_of_small s ltac:(lia)) as [Hk Hk14].
  pose proof (Z.log2_nonneg s) as Hlog.
  assert (Hslot : slot < HDRP bp) by (unfold slot; rewrite Hk; addr_lia).
  rewrite mm_free_isolated by (fold m; fold s; first [lia | assumption]).
  fold m. fold s.
  set (m2 := PUT _ (bp + s - DSIZE) _).
  assert (Hh2 : GET m2 slot = head) by (unfold m2; repeat word_step; reflexivity).
  rewrite insert_list_at_head; cbn [mem heap_listp set_mem]; fold slot.
  - rewrite Hh2. reflexivity.
  - exact Hf.
  - unfold MAXCLASS. lia.
  - rewrite Hh2. intros Hn. destruct Hhead as [?|(Hsz & Hhtab & Hout)]; [contradiction|].
    unfold m2. rewrite !GET_SIZE_PUT_ne by addr_lia. exact Hsz.
Qed.

(** X17: freeing a block of less than 2^14 bytes whose two physical
    neighbours are allocated.  The block keeps its size, its header and
    footer lose the allocated bit, and it becomes the first block of the
    list of its class, in front of the old head; no other word of the heap
    changes. *)
Theorem free_between_allocated_blocks (fuel : nat) (st : state) (bp : Z) :
  let m := mem st in
  let s := GET_SIZE m (HDRP bp) in
  let slot := heap_listp st + snd (class_of s) * WSIZE in
  let head := GET m slot in
  (0 < fuel)%nat ->
  16 <= s < 2 ^ 14 ->
  0 <= bp < 2 ^ 32 ->
  0 < GET_SIZE m (bp - DSIZE) ->
  GET_ALLOC m (HDRP (PREV_BLKP m bp)) = 1 ->
  GET_ALLOC m (HDRP (NEXT_BLKP m bp)) = 1 ->
  heap_listp st + MAXCLASS * WSIZE <= HDRP bp ->
  (head = NULL \/
   (0 < GET_SIZE m (HDRP head) /\
    heap_listp st + MAXCLASS * WSIZE <= HDRP head /\
    (head + 16 <= bp \/ bp + s <= head))) ->
  exists st',
    mm_free fuel st bp = Ret st' /\
    tagged (mem st') bp s 0 /\
    GET (mem st') slot = bp /\
    PRED (mem st') bp = NULL /\
    SUCC (mem st') bp = head /\
    (head <> NULL -> PRED (mem st') head = bp) /\
    (forall a, a <> HDRP bp -> a <> bp + s - DSIZE -> a <> bp -> a <> bp + WSIZE ->
       a <> slot -> a <> head -> GET (mem st') a = GET m a).
Proof.
  intros m s slot head Hf Hs Hbp Hp Hpa Hna Htab Hhead.
  pose proof (class_of_small s ltac:(lia)) as [Hk Hk14].
  pose proof (Z.log2_nonneg s) as Hlog.
  pose proof (GET_SIZE_mod8 m (HDRP bp)) as H8. fold s in H8.
  assert (Hslot : slot < HDRP bp) by (unfold slot; rewrite Hk; addr_lia).
  assert (Hhr : w32 head = head) by (apply w32_id, GET_range).
  assert (Hsr : 0 <= s < 2 ^ 32) by (change (2 ^ 32) with 4294967296; lia).
  rewrite mm_free_isolated_state by assumption.
  fold m. fold s. fold slot. fold head.
  eexists. split; [reflexivity|]. cbn [mem set_mem].
  unfold link_in, tagged, PRED, SUCC, PRED_PTR, SUCC_PTR.
  change (negb (NULL =? NULL)) with false. cbv iota.
  destruct (head =? NULL) eqn:E; cbn [negb]; cbv iota.
  - assert (head = NULL) as Hn by (unfold NULL in *; lia).
    split; [split; repeat word_step; [rewrite PACK_0 | rewrite PACK_0]; by apply w32_id|].
    split; [repeat word_step; apply w32_id, Hbp|].
    split; [repeat word_step; reflexivity|].
    split; [repeat word_step; rewrite Hn; reflexivity|].
    split; [intros; contradiction|].
    intros a A1 A2 A3 A4 A5 A6. rewrite !GET_PUT_ne by congruence. reflexivity.
  - destruct Hhead as [?|(Hsz & Hhtab & Hout)]; [unfold NULL in *; lia|].
    split; [split; repeat word_step; [rewrite PACK_0 | rewrite PACK_0]; by apply w32_id|].
    split; [repeat word_step; apply w32_id, Hbp|].
    split; [repeat word_step; reflexivity|].
    split; [repeat word_step; exact Hhr|].
    split; [intros _; repeat word_step; apply w32_id, Hbp|].
    intros a A1 A2 A3 A4 A5 A6. rewrite !GET_PUT_ne by congruence. reflexivity.
Qed.

Lemma remove_list_first st bp :
  PRED (mem st) bp = NULL ->
  let slot := heap_listp st + snd (class_of (GET_SIZE (mem st) (HDRP bp))) * WSIZE in
  let m1 := PUT (mem st) slot (SUCC (mem st) bp) in
  mem (remove_list st bp)
  = (if negb (SUCC m1 bp =? NULL) then PUT m1 (PRED_PTR (SUCC m1 bp)) (PRED m1 bp)
     else m1).
Proof.
  intros Hp slot m1. unfold remove_list.
  destruct (class_of (GET_SIZE (mem st) (HDRP bp))) as [x i] eqn:E.
  cbn [snd] in slot. cbn [mem set_mem]. rewrite Hp.
  change (negb (NULL =? NULL)) with false. cbv iota. reflexivity.
Qed.

(** X18: a block of less than 2^14 bytes between two allocated blocks is
    reused by the next allocation of its size.  After [mm_free(bp)], an
    [mm_malloc] whose adjusted size is the size of the block returns [bp]
    again, with the block tagged allocated at its full size, the list of
    its class back to its old head, and the break where it was. *)
Theorem free_then_malloc_reuses_block (fuel : nat) (st : state) (bp size : Z) :
  let m := mem st in
  let s := GET_SIZE m (HDRP bp) in
  let slot := heap_listp st + snd (class_of s) * WSIZE in
  let head := GET m slot in
  (0 < fuel)%nat ->
  16 <= s < 2 ^ 14 ->
  size <> 0 -> adjust size = s ->
  0 <= heap_listp st -> bp < 2 ^ 32 ->
  0 < GET_SIZE m (bp - DSIZE) ->
  GET_ALLOC m (HDRP (PREV_BLKP m bp)) = 1 ->
  GET_ALLOC m (HDRP (NEXT_BLKP m bp)) = 1 ->
  heap_listp st + MAXCLASS * WSIZE <= HDRP bp ->
  (head = NULL \/
   (0 < GET_SIZE m (HDRP head) /\
    heap_listp st + MAXCLASS * WSIZE <= HDRP head /\
    (head + 16 <= bp \/ bp + s <= head))) ->
  exists st' st'',
    mm_free fuel st bp = Ret st' /\
    mm_malloc fuel st' size = Ret (st'', bp) /\
    tagged (mem st'') bp s 1 /\
    GET (mem st'') slot = head /\
    mem_brk st'' = mem_brk st.
Proof.
  intros m s slot head Hf Hs Hsz Hadj Hhl Hbp Hp Hpa Hna Htab Hhead.
  pose proof (class_of_small s ltac:(lia)) as [Hk Hk14].
  pose proof (Z.log2_nonneg s) as Hlog.
  pose proof (GET_SIZE_mod8 m (HDRP bp)) as H8. fold s in H8.
  assert (Hslot : slot < HDRP bp) by (unfold slot; rewrite Hk; addr_lia).
  assert (Hhr : w32 head = head) by (apply w32_id, GET_range).
  assert (Hsr : 0 <= s < 2 ^ 32) by (change (2 ^ 32) with 4294967296; lia).
  assert (Hbp0 : 0 < bp < 2 ^ 32) by addr_lia.
  rewrite mm_free_isolated_state by assumption.
  fold m. fold s. fold slot. fold head.
  set (st' := set_mem st _).
  (* the state after the free *)
  assert (F1 : GET (mem st') slot = bp /\ GET_SIZE (mem st') (HDRP bp) = s /\
               PRED (mem st') bp = NULL /\ SUCC (mem st') bp = head).
  { unfold st'. cbn [mem set_mem].
    unfold link_in, PRED, SUCC, PRED_PTR, SUCC_PTR, GET_SIZE.
    change (negb (NULL =? NULL)) with false. cbv iota.
    destruct (head =? NULL) eqn:E; cbn [negb]; cbv iota.
    - assert (head = NULL) as Hn by (unfold NULL in *; lia).
      repeat split; repeat word_step;
        [ apply w32_id; lia
        | rewrite PACK_0, w32_id by assumption; fold (Z.lnot 7);
          rewrite land_lnot7; dlia
        | reflexivity | rewrite Hn; reflexivity ].
    - destruct Hhead as [?|(Hsz' & Hhtab & Hout)]; [unfold NULL in *; lia|].
      repeat split; repeat word_step;
        [ apply w32_id; lia
        | rewrite PACK_0, w32_id by assumption; fold (Z.lnot 7);
          rewrite land_lnot7; dlia
        | reflexivity | exact Hhr ]. }
  destruct F1 as (F1 & F2 & F3 & F4).
  assert (Hhl' : heap_listp st' = heap_listp st) by reflexivity.
  exists st'. eexists. split; [reflexivity|].
  (* the allocation finds the block at the head of its class *)
  unfold mm_malloc. destruct (size =? 0) eqn:E0; [lia|]. rewrite Hadj.
  destruct fuel as [|fuel]; [lia|].
  assert (Hfit : find_fit (S fuel) st' s = Ret bp).
  { unfold find_fit.
    rewrite (find_fit_loop_first fuel st' s (Z.log2 s) 15 s 0).
    - rewrite Hhl', <- Hk. fold slot. by rewrite F1.
    - symmetry. apply Z.shiftr_0_r.
    - lia.
    - lia.
    - unfold MAXCLASS. lia.
    - intros j Hj. destruct (Z.le_gt_cases (Z.shiftr s j) 1) as [Hle|]; [|lia].
      apply shiftr_small_iff_log2 in Hle; lia.
    - apply shiftr_small_iff_log2; lia.
    - rewrite Hhl', <- Hk. fold slot. rewrite F1. unfold NULL. lia.
    - rewrite Hhl', <- Hk. fold slot. rewrite F1, F2. lia. }
  rewrite Hfit. cbn [mbind result_mbind result_bind].
  destruct (bp =? NULL) eqn:E1; [unfold NULL in *; lia|]. cbn [negb].
  rewrite place_whole by (rewrite F2; lia). rewrite F2.
  split; [reflexivity|]. cbn [mem mem_brk set_mem].
  split; [split; repeat get_step; reflexivity|].
  split; [|rewrite remove_list_brk; reflexivity].
  do 2 rewrite GET_PUT_ne by addr_lia.
  rewrite remove_list_first by exact F3. rewrite F2, F4, Hhl'. fold slot.
  unfold SUCC, PRED, SUCC_PTR, PRED_PTR.
  rewrite (GET_PUT_ne _ slot (bp + WSIZE)) by addr_lia.
  fold (SUCC_PTR bp). fold (SUCC (mem st') bp). rewrite F4.
  destruct (head =? NULL) eqn:E; cbn [negb]; cbv iota.
  - rewrite GET_PUT_eq. exact Hhr.
  - destruct Hhead as [?|(Hsz' & Hhtab & Hout)]; [unfold NULL in *; lia|].
    rewrite GET_PUT_ne by addr_lia. rewrite GET_PUT_eq. exact Hhr.
Qed.

Lemma free_between_allocated_witness :
  let st := unwrap run_two_frees_first in
  exists st',
    mm_free 64 st 1104 = Ret st' /\
    tagged (mem st') 1104 (GET_SIZE (mem st) (HDRP 1104)) 0 /\
    GET (mem st')
      (heap_listp st + snd (class_of (GET_SIZE (mem st) (HDRP 1104))) * WSIZE)
    = 1104.
Proof.
  destruct (free_between_allocated_blocks 64 (unwrap run_two_frees_first) 1104)
    as (st' & H1 & H2 & H3 & _);
    [ apply Nat.lt_0_succ | by_eval | by_eval | by_eval | by_eval | by_eval | by_eval
    | right; split; [by_eval | split; [by_eval | left; by_eval]] | ].
  exists st'. split; [exact H1|]. split; [exact H2 | exact H3].
Defined.

Lemma free_then_malloc_witness :
  let st := unwrap run_two_frees_first in
  exists st' st'',
    mm_free 64 st 1104 = Ret st' /\
    mm_malloc 64 st' 16 = Ret (st'', 1104) /\
    tagged (mem st'') 1104 (GET_SIZE (mem st) (HDRP 1104)) 1.
Proof.
  destruct (free_then_malloc_reuses_block 64 (unwrap run_two_frees_first) 1104 16)
    as (st' & st'' & H1 & H2 & H3 & _);
    [ apply Nat.lt_0_succ | by_eval | by_eval | by_eval | by_eval | by_eval
    | by_eval | by_eval | by_eval | by_eval
    | right; split; [by_eval | split; [by_eval | left; by_eval]] | ].
  exists st', st''. split; [exact H1|]. split; [exact H2 | exact H3].
Defined.

Lemma class_index_witness : snd (class_of 24) <= snd (class_of 4096).
Proof. apply (proj2 (class_index_is_capped_log2 24 4096)). by_eval. Defined.

(** * Merging with a free neighbour *)

(** Unlinking a block leaves alone every word of a region that lies above
    the class table and holds neither the predecessor nor the successor of
    the block on its list. *)
Lemma remove_list_keeps st b lo hi a :
  let m := mem st in
  heap_listp st + MAXCLASS * WSIZE <= lo ->
  (PRED m b = NULL \/ PRED m b + WSIZE < lo \/ hi < PRED m b) ->
  (SUCC m b = NULL \/ SUCC m b + WSIZE < lo \/ hi < SUCC m b) ->
  lo <= b + WSIZE <= hi ->
  lo <= a <= hi ->
  GET (mem (remove_list st b)) a = GET m a.
Proof.
  intros m Htab Hp Hs Hb Ha. unfold remove_list. fold m.
  destruct (class_of (GET_SIZE m (HDRP b))) as [x i] eqn:E.
  pose proof (class_of_index (GET_SIZE m (HDRP b))) as Hi. rewrite E in Hi.
  cbn [snd] in Hi. cbn [mem set_mem].
  set (m1 := if negb (PRED m b =? NULL) then _ else _).
  assert (H1 : forall a', lo <= a' <= hi -> GET m1 a' = GET m a').
  { intros a' Ha'. unfold m1.
    destruct (PRED m b =? NULL) eqn:Ep; cbn [negb].
    - apply GET_PUT_ne. addr_lia.
    - apply GET_PUT_ne. unfold SUCC_PTR.
      destruct Hp as [Hp|Hp]; [unfold NULL in *; lia | addr_lia]. }
  assert (Hs1 : SUCC m1 b = SUCC m b) by (unfold SUCC, SUCC_PTR; apply H1; lia).
  rewrite Hs1.
  destruct (SUCC m b =? NULL) eqn:Es; cbn [negb]; [by apply H1|].
  rewrite GET_PUT_ne; [by apply H1|]. unfold PRED_PTR.
  destruct Hs as [Hs|Hs]; [unfold NULL in *; lia | addr_lia].
Qed.

Lemma GET_SIZE_ext m m' a : GET m' a = GET m a -> GET_SIZE m' a = GET_SIZE m a.
Proof. unfold GET_SIZE. by intros ->. Qed.

Lemma GET_ALLOC_ext m m' a : GET m' a = GET m a -> GET_ALLOC m' a = GET_ALLOC m a.
Proof. unfold GET_ALLOC. by intros ->. Qed.

(** X20: [coalesce] with an allocated predecessor and a free successor
    (case 2).  The successor is unlinked from its list, the block at [bp]
    gets header and footer with the sum of the two sizes and no allocated
    bit, that block is handed to [insert_list], and [bp] is returned. *)
Theorem coalesce_merges_free_successor
    (fuel : nat) (st : state) (bp size : Z) (nodes : list Z) :
  let m := mem st in
  let nb := bp + size in
  let n := GET_SIZE m (HDRP nb) in
  let st1 := remove_list st nb in
  let slot := heap_listp st + snd (class_of (size + n)) * WSIZE in
  let outside x := x + 16 <= bp \/ bp + size + n <= x in
  GET_SIZE m (HDRP bp) = size ->
  GET_ALLOC m (HDRP (PREV_BLKP m bp)) = 1 ->
  GET_ALLOC m (HDRP nb) = 0 ->
  8 <= size -> 16 <= n -> size + n < 2 ^ 32 ->
  heap_listp st + MAXCLASS * WSIZE <= HDRP bp ->
  (PRED m nb = NULL \/ outside (PRED m nb)) ->
  (SUCC m nb = NULL \/ outside (SUCC m nb)) ->
  chain (mem st1) (GET (mem st1) slot) nodes ->
  (forall x, In x nodes -> outside x) ->
  (length nodes < fuel)%nat ->
  exists st',
    coalesce fuel st bp size = Ret (st', bp) /\
    tagged (mem st') bp (size + n) 0 /\
    exists m4,
      insert_list fuel (set_mem st1 m4) bp (size + n) = Ret st' /\
      forall a, a <> HDRP bp -> a <> bp + (size + n) - DSIZE ->
        GET m4 a = GET (mem st1) a.
Proof.
  intros m nb n st1 slot outside Hsz Hpa Hna Hs8 Hn16 Hsum Htab Hp Hs Hchain Hout Hfuel.
  subst outside. cbv beta in *.
  assert (Em : mem st = m) by reflexivity.
  assert (Enb : bp + size = nb) by reflexivity.
  assert (En : GET_SIZE m (HDRP nb) = n) by reflexivity.
  assert (Est1 : remove_list st nb = st1) by reflexivity.
  assert (Eslot : heap_listp st + snd (class_of (size + n)) * WSIZE = slot)
    by reflexivity.
  clearbody slot st1 n nb m.
  pose proof (GET_SIZE_mod8 m (HDRP bp)) as H8. rewrite Hsz in H8.
  pose proof (GET_SIZE_mod8 m (HDRP nb)) as Hn8. rewrite En in Hn8.
  pose proof (GET_SIZE_range m (HDRP nb)) as Hnr. rewrite En in Hnr.
  assert (Hkeep : forall a, HDRP bp <= a <= bp + size + n - DSIZE ->
            GET (mem st1) a = GET m a).
  { intros a Ha. rewrite <- Est1, <- Em.
    apply (remove_list_keeps st nb (HDRP bp) (bp + size + n - DSIZE));
      rewrite ?Em; try assumption.
    - destruct Hp as [Hp|[Hp|Hp]]; [by left | right; left; addr_lia | right; right; addr_lia].
    - destruct Hs as [Hs|[Hs|Hs]]; [by left | right; left; addr_lia | right; right; addr_lia].
    - addr_lia. }
  assert (Hhl : heap_listp st1 = heap_listp st)
    by (rewrite <- Est1; apply remove_list_heap_listp).
  assert (Hnext : NEXT_BLKP m bp = nb).
  { unfold NEXT_BLKP. fold (HDRP bp). rewrite Hsz. exact Enb. }
  unfold coalesce. rewrite Em, Hpa, Hnext, Hna.
  change (negb (1 =? 0) && negb (0 =? 0)) with false.
  change (negb (1 =? 0) && (0 =? 0)) with true. cbv iota. rewrite Est1.
  assert (Hnext1 : NEXT_BLKP (mem st1) bp = nb).
  { unfold NEXT_BLKP. fold (HDRP bp).
    rewrite (GET_SIZE_ext m) by (apply Hkeep; addr_lia). rewrite Hsz. exact Enb. }
  rewrite Hnext1.
  rewrite (GET_SIZE_ext m (mem st1) (HDRP nb)) by (apply Hkeep; addr_lia).
  rewrite En. rewrite (w32_id (size + n)) by lia.
  assert (Hs8' : (size + n) mod 8 = 0) by dlia.
  assert (Hsr : 0 <= size + n < 2 ^ 32) by lia.
  unfold FTRP. rewrite GET_SIZE_PUT_tag by auto.
  set (m4 := PUT _ (bp + (size + n) - DSIZE) _).
  assert (Hfr : forall a, a <> HDRP bp -> a <> bp + (size + n) - DSIZE ->
            GET m4 a = GET (mem st1) a).
  { intros a A1 A2. unfold m4. do 2 rewrite GET_PUT_ne by congruence. reflexivity. }
  pose proof (class_of_index (size + n)) as Hidx.
  assert (Hcp : slot < HDRP bp) by (rewrite <- Eslot; addr_lia).
  assert (Hout' : forall x, In x nodes -> x + WSIZE < HDRP bp \/ bp + (size + n) - DSIZE < x)
    by (intros x Hx; specialize (Hout x Hx); addr_lia).
  assert (Hch4 : chain m4 (GET m4 slot) nodes).
  { rewrite Hfr by addr_lia. eapply chain_frame; [|exact Hchain].
    intros x Hx. unfold SUCC, SUCC_PTR. specialize (Hout' x Hx).
    apply Hfr; addr_lia. }
  destruct (insert_list_chain fuel (set_mem st1 m4) bp (size + n) nodes)
    as (last & cur & Hins & Hcur & Hlast).
  { cbn [heap_listp mem set_mem]. rewrite Hhl, Eslot. exact Hch4. }
  { exact Hfuel. }
  cbn [heap_listp mem set_mem] in Hins. rewrite Hhl, Eslot in Hins.
  rewrite Hins. cbn [mbind result_mbind result_bind].
  eexists. split; [reflexivity|]. cbn [mem set_mem].
  assert (T : tagged m4 bp (size + n) 0)
    by (split; unfold m4; repeat get_step; reflexivity).
  assert (Keep : forall a, HDRP bp <= a <= bp + (size + n) - DSIZE ->
            a <> bp -> a <> bp + WSIZE ->
            GET (link_in m4 slot bp last cur) a = GET m4 a).
  { intros a A1 A2 A3. eapply link_in_keeps; try eassumption. }
  split.
  - destruct T as [Ta Tb]. split; (rewrite Keep by addr_lia); assumption.
  - exists m4. split; [exact Hins | exact Hfr].
Qed.

(** X21: [coalesce] with a free predecessor and an allocated successor
    (case 3).  The predecessor is unlinked from its list, its header and
    the footer of [bp] get the sum of the two sizes without allocated bit,
    the merged block - which starts where the predecessor started - is
    handed to [insert_list], and the predecessor's pointer is returned. *)
Theorem coalesce_merges_free_predecessor
    (fuel : nat) (st : state) (bp size : Z) (nodes : list Z) :
  let m := mem st in
  let pn := GET_SIZE m (bp - DSIZE) in
  let pb := bp - pn in
  let st1 := remove_list st pb in
  let slot := heap_listp st + snd (class_of (size + pn)) * WSIZE in
  let outside x := x + 16 <= pb \/ bp + size <= x in
  GET_SIZE m (HDRP bp) = size ->
  GET_SIZE m (HDRP pb) = pn ->
  GET_ALLOC m (HDRP pb) = 0 ->
  GET_ALLOC m (HDRP (bp + size)) = 1 ->
  8 <= size -> 16 <= pn -> size + pn < 2 ^ 32 ->
  heap_listp st + MAXCLASS * WSIZE <= HDRP pb ->
  (PRED m pb = NULL \/ outside (PRED m pb)) ->
  (SUCC m pb = NULL \/ outside (SUCC m pb)) ->
  chain (mem st1) (GET (mem st1) slot) nodes ->
  (forall x, In x nodes -> outside x) ->
  (length nodes < fuel)%nat ->
  exists st',
    coalesce fuel st bp size = Ret (st', pb) /\
    tagged (mem st') pb (size + pn) 0 /\
    exists m3,
      insert_list fuel (set_mem st1 m3) pb (size + pn) = Ret st' /\
      forall a, a <> HDRP pb -> a <> bp + size - DSIZE ->
        GET m3 a = GET (mem st1) a.
Proof.
  intros m pn pb st1 slot outside Hsz Hph Hpa Hna Hs8 Hp16 Hsum Htab Hp Hs
    Hchain Hout Hfuel.
  subst outside. cbv beta in *.
  assert (Em : mem st = m) by reflexivity.
  assert (Epn : GET_SIZE m (bp - DSIZE) = pn) by reflexivity.
  assert (Epb : bp - pn = pb) by reflexivity.
  assert (Est1 : remove_list st pb = st1) by reflexivity.
  assert (Eslot : heap_listp st + snd (class_of (size + pn)) * WSIZE = slot)
    by reflexivity.
  clearbody slot st1 pb pn m.
  pose proof (GET_SIZE_mod8 m (HDRP bp)) as H8. rewrite Hsz in H8.
  pose proof (GET_SIZE_mod8 m (bp - DSIZE)) as Hn8. rewrite Epn in Hn8.
  pose proof (GET_SIZE_range m (bp - DSIZE)) as Hnr. rewrite Epn in Hnr.
  assert (Hkeep : forall a, HDRP pb <= a <= bp + size - DSIZE ->
            GET (mem st1) a = GET m a).
  { intros a Ha. rewrite <- Est1, <- Em.
    apply (remove_list_keeps st pb (HDRP pb) (bp + size - DSIZE));
      rewrite ?Em; try assumption.
    - destruct Hp as [Hp|[Hp|Hp]]; [by left | right; left; addr_lia | right; right; addr_lia].
    - destruct Hs as [Hs|[Hs|Hs]]; [by left | right; left; addr_lia | right; right; addr_lia].
    - addr_lia. }
  assert (Hhl : heap_listp st1 = heap_listp st)
    by (rewrite <- Est1; apply remove_list_heap_listp).
  assert (Hprev : PREV_BLKP m bp = pb) by (unfold PREV_BLKP; rewrite Epn; exact Epb).
  assert (Hnext : NEXT_BLKP m bp = bp + size).
  { unfold NEXT_BLKP. fold (HDRP bp). by rewrite Hsz. }
  unfold coalesce. rewrite Em, Hprev, Hpa, Hnext, Hna.
  change (negb (0 =? 0) && negb (1 =? 0)) with false.
  change (negb (0 =? 0) && (1 =? 0)) with false.
  change ((0 =? 0) && negb (1 =? 0)) with true. cbv iota. rewrite Est1.
  assert (Hprev1 : PREV_BLKP (mem st1) bp = pb).
  { unfold PREV_BLKP. rewrite (GET_SIZE_ext m) by (apply Hkeep; addr_lia).
    rewrite Epn. exact Epb. }
  rewrite Hprev1.
  rewrite (GET_SIZE_ext m (mem st1) (HDRP pb)) by (apply Hkeep; addr_lia).
  rewrite Hph. rewrite (w32_id (size + pn)) by lia.
  assert (Hs8' : (size + pn) mod 8 = 0) by dlia.
  assert (Hsr : 0 <= size + pn < 2 ^ 32) by lia.
  assert (Hftr : FTRP (mem st1) bp = bp + size - DSIZE).
  { unfold FTRP. rewrite (GET_SIZE_ext m) by (apply Hkeep; addr_lia).
    by rewrite Hsz. }
  rewrite Hftr.
  assert (Hprev2 : PREV_BLKP (PUT (mem st1) (bp + size - DSIZE) (PACK (size + pn) 0)) bp
                   = pb).
  { unfold PREV_BLKP. rewrite GET_SIZE_PUT_ne by addr_lia.
    rewrite (GET_SIZE_ext m) by (apply Hkeep; addr_lia). rewrite Epn. exact Epb. }
  rewrite Hprev2.
  set (m3 := PUT _ (HDRP pb) _).
  assert (Hprev3 : PREV_BLKP m3 bp = pb).
  { unfold PREV_BLKP, m3. do 2 rewrite GET_SIZE_PUT_ne by addr_lia.
    rewrite (GET_SIZE_ext m) by (apply Hkeep; addr_lia). rewrite Epn. exact Epb. }
  rewrite Hprev3.
  assert (Hfr : forall a, a <> HDRP pb -> a <> bp + size - DSIZE ->
            GET m3 a = GET (mem st1) a).
  { intros a A1 A2. unfold m3. do 2 rewrite GET_PUT_ne by congruence. reflexivity. }
  pose proof (class_of_index (size + pn)) as Hidx.
  assert (Hcp : slot < HDRP pb) by (rewrite <- Eslot; addr_lia).
  assert (Hout' : forall x, In x nodes -> x + WSIZE < HDRP pb \/ bp + size - DSIZE < x)
    by (intros x Hx; specialize (Hout x Hx); addr_lia).
  assert (Hch3 : chain m3 (GET m3 slot) nodes).
  { rewrite Hfr by addr_lia. eapply chain_frame; [|exact Hchain].
    intros x Hx. unfold SUCC, SUCC_PTR. specialize (Hout' x Hx).
    apply Hfr; addr_lia. }
  destruct (insert_list_chain fuel (set_mem st1 m3) pb (size + pn) nodes)
    as (last & cur & Hins & Hcur & Hlast).
  { cbn [heap_listp mem set_mem]. rewrite Hhl, Eslot. exact Hch3. }
  { exact Hfuel. }
  cbn [heap_listp mem set_mem] in Hins. rewrite Hhl, Eslot in Hins.
  rewrite Hins. cbn [mbind result_mbind result_bind].
  eexists. split; [reflexivity|]. cbn [mem set_mem].
  assert (T : tagged m3 pb (size + pn) 0).
  { split; unfold m3.
    - repeat get_step; reflexivity.
    - replace (pb + (size + pn) - DSIZE) with (bp + size - DSIZE) by lia.
      repeat get_step; reflexivity. }
  assert (Keep : forall a, HDRP pb <= a <= bp + size - DSIZE ->
            a <> pb -> a <> pb + WSIZE ->
            GET (link_in m3 slot pb last cur) a = GET m3 a).
  { intros a A1 A2 A3. eapply link_in_keeps; try eassumption. }
  split.
  - destruct T as [Ta Tb]. split; (rewrite Keep by addr_lia); assumption.
  - exists m3. split; [exact Hins | exact Hfr].
Qed.

Lemma coalesce_merges_free_successor_witness :
  let st := heap_one_block in
  exists st',
    coalesce 64 st 1072 16 = Ret (st', 1072) /\
    tagged (mem st') 1072 (16 + GET_SIZE (mem st) (HDRP (1072 + 16))) 0.
Proof.
  destruct (coalesce_merges_free_successor 64 heap_one_block 1072 16 [])
    as (st' & H1 & H2 & _);
    [ by_eval | by_eval | by_eval | by_eval | by_eval | by_eval | by_eval
    | left; by_eval | left; by_eval | by_eval | intros x []
    | apply Nat.lt_0_succ | ].
  exists st'. split; [exact H1 | exact H2].
Defined.

Lemma coalesce_merges_free_predecessor_witness :
  let st := unwrap run_two_frees_first in
  let pb := 1088 - GET_SIZE (mem st) (1088 - DSIZE) in
  exists st',
    coalesce 64 st 1088 16 = Ret (st', pb) /\
    tagged (mem st') pb (16 + GET_SIZE (mem st) (1088 - DSIZE)) 0.
Proof.
  destruct (coalesce_merges_free_predecessor 64 (unwrap run_two_frees_first) 1088 16 [])
    as (st' & H1 & H2 & _);
    [ by_eval | by_eval | by_eval | by_eval | by_eval | by_eval | by_eval | by_eval
    | left; by_eval | left; by_eval | by_eval | intros x []
    | apply Nat.lt_0_succ | ].
  exists st'. split; [exact H1 | exact H2].
Defined.

(** * Unlinking and linking on the free lists *)

(** X22: [remove_list] unlinks a block from its doubly linked list.  The
    successor field of its predecessor - or the class slot, when it has no
    predecessor - receives its successor, the predecessor field of its
    successor (if any) receives its predecessor, and no other word
    changes. *)
Theorem remove_list_unlinks (st : state) (bp : Z) :
  let m := mem st in
  let pred := PRED m bp in
  let succ := SUCC m bp in
  let slot := heap_listp st + snd (class_of (GET_SIZE m (HDRP bp))) * WSIZE in
  let link := if pred =? NULL then slot else SUCC_PTR pred in
  let m' := mem (remove_list st bp) in
  link <> bp -> link <> bp + WSIZE -> link <> succ ->
  GET m' link = succ /\
  (succ <> NULL -> PRED m' succ = pred) /\
  (forall a, a <> link -> (succ <> NULL -> a <> succ) -> GET m' a = GET m a).
Proof.
  intros m pred succ slot link m' D1 D2 D3.
  assert (Em : mem st = m) by reflexivity.
  assert (Ep : PRED m bp = pred) by reflexivity.
  assert (Es : SUCC m bp = succ) by reflexivity.
  assert (Eslot : heap_listp st + snd (class_of (GET_SIZE m (HDRP bp))) * WSIZE = slot)
    by reflexivity.
  assert (Elink : (if pred =? NULL then slot else SUCC_PTR pred) = link)
    by reflexivity.
  assert (Em' : mem (remove_list st bp) = m') by reflexivity.
  clearbody m' link slot succ pred m.
  assert (Hp : w32 pred = pred) by (rewrite <- Ep; apply w32_id, GET_range).
  assert (Hs : w32 succ = succ) by (rewrite <- Es; apply w32_id, GET_range).
  assert (Hm' : m' = (if negb (succ =? NULL)
                      then PUT (PUT m link succ) (PRED_PTR succ) pred
                      else PUT m link succ)).
  { rewrite <- Em'. unfold remove_list. rewrite Em.
    destruct (class_of (GET_SIZE m (HDRP bp))) as [x i] eqn:E.
    cbn [snd] in Eslot. cbn [mem set_mem]. rewrite Ep, Es, Eslot.
    assert (Hm1 : (if negb (pred =? NULL) then PUT m (SUCC_PTR pred) succ
                   else PUT m slot succ) = PUT m link succ).
    { rewrite <- Elink. destruct (pred =? NULL); reflexivity. }
    rewrite Hm1.
    assert (S1 : SUCC (PUT m link succ) bp = succ).
    { unfold SUCC, SUCC_PTR. rewrite GET_PUT_ne by exact D2. exact Es. }
    assert (P1 : PRED (PUT m link succ) bp = pred).
    { unfold PRED, PRED_PTR. rewrite GET_PUT_ne by exact D1. exact Ep. }
    rewrite S1, P1. reflexivity. }
  rewrite Hm'. unfold PRED, PRED_PTR.
  destruct (succ =? NULL) eqn:E; cbn [negb].
  - split; [rewrite GET_PUT_eq; exact Hs|].
    split; [intros Hn; unfold NULL in *; lia|].
    intros a A1 _. apply GET_PUT_ne. congruence.
  - assert (succ <> NULL) as Hn by (unfold NULL in *; lia).
    split; [rewrite GET_PUT_ne by congruence; rewrite GET_PUT_eq; exact Hs|].
    split; [intros _; rewrite GET_PUT_eq; exact Hp|].
    intros a A1 A2. specialize (A2 Hn).
    do 2 rewrite GET_PUT_ne by congruence. reflexivity.
Qed.

Lemma remove_list_unlinks_witness :
  let st := unwrap run_two_frees in
  GET (mem (remove_list st 1072)) (SUCC_PTR 1104) = NULL.
Proof.
  destruct (remove_list_unlinks (unwrap run_two_frees) 1072) as (H & _);
    [by_eval | by_eval | by_eval |].
  exact H.
Defined.

(** X23: on the list of a class below [MAXCLASS - 1], inserting a block
    and unlinking it again is a round trip.  With [l] the blocks of the
    list (aligned, above the class table, [bp] not among them),
    [insert_list] makes the list [bp :: l], and [remove_list] of [bp]
    right after makes it [l] again. *)
Theorem insert_then_remove_round_trip
    (fuel : nat) (st : state) (bp size : Z) (l : list Z) :
  let m := mem st in
  let slot := heap_listp st + snd (class_of size) * WSIZE in
  (0 < fuel)%nat ->
  snd (class_of size) < MAXCLASS - 1 ->
  snd (class_of (GET_SIZE m (HDRP bp))) = snd (class_of size) ->
  chain m (GET m slot) l ->
  (forall x, In x l ->
     aligned8 x /\ x <> bp /\ slot < x /\ 0 < GET_SIZE m (HDRP x)) ->
  aligned8 bp -> 0 < bp < 2 ^ 32 -> slot < HDRP bp ->
  exists st',
    insert_list fuel st bp size = Ret st' /\
    chain (mem st') (GET (mem st') slot) (bp :: l) /\
    chain (mem (remove_list st' bp)) (GET (mem (remove_list st' bp)) slot) l.
Proof.
  intros m slot Hf Hk Hcls Hchain Hl Hbp8 Hbp Hslot.
  assert (Em : mem st = m) by reflexivity.
  assert (Eslot : heap_listp st + snd (class_of size) * WSIZE = slot) by reflexivity.
  clearbody slot m.
  set (head := GET m slot) in *.
  assert (Hhr : w32 head = head) by (apply w32_id, GET_range).
  assert (Hhead : head = NULL \/ In head l).
  { destruct l as [|x l']; cbn in Hchain; [by left|].
    destruct Hchain as (-> & _). right. by left. }
  assert (Hh8 : aligned8 head).
  { destruct Hhead as [->|Hin]; [reflexivity | apply Hl, Hin]. }
  rewrite insert_list_at_head; rewrite ?Em, ?Eslot; fold head; try assumption.
  2: { intros Hn. destruct Hhead as [?|Hin]; [contradiction | apply Hl, Hin]. }
  eexists. split; [reflexivity|]. cbn [mem set_mem].
  set (m1 := link_in m slot bp NULL head).
  (* what the insertion wrote *)
  assert (W : GET m1 slot = bp /\ PRED m1 bp = NULL /\ SUCC m1 bp = head /\
              GET_SIZE m1 (HDRP bp) = GET_SIZE m (HDRP bp) /\
              forall x, In x l -> SUCC m1 x = SUCC m x).
  { unfold m1, link_in, PRED, SUCC, PRED_PTR, SUCC_PTR, GET_SIZE, aligned8 in *.
    change (negb (NULL =? NULL)) with false. cbv iota.
    assert (Hx : forall x, In x l ->
              x + WSIZE <> bp /\ x + WSIZE <> bp + WSIZE /\ x + WSIZE <> head
              /\ x + WSIZE <> slot).
    { intros x Hx. destruct (Hl x Hx) as (X1 & X2 & X3 & X4). addr_lia. }
    destruct (head =? NULL) eqn:E; cbn [negb]; cbv iota.
    - repeat split; try (repeat word_step; first [apply w32_id; lia | reflexivity | exact Hhr]).
      intros x Hin. destruct (Hx x Hin) as (X1 & X2 & X3 & X4).
      rewrite !GET_PUT_ne by congruence. reflexivity.
    - assert (slot < head) by (destruct Hhead as [?|Hin];
        [unfold NULL in *; lia | apply Hl, Hin]).
      assert (head <> bp) by (destruct Hhead as [?|Hin];
        [unfold NULL in *; lia | apply Hl, Hin]).
      repeat split; try (repeat word_step; first [apply w32_id; lia | reflexivity | exact Hhr]).
      intros x Hin. destruct (Hx x Hin) as (X1 & X2 & X3 & X4).
      rewrite !GET_PUT_ne by congruence. reflexivity. }
  destruct W as (W1 & W2 & W3 & W4 & W5).
  split.
  - cbn [chain]. split; [exact W1|]. split; [unfold NULL; lia|].
    rewrite W3. eapply chain_frame; [exact W5 | exact Hchain].
  - (* unlinking [bp] again *)
    set (st1 := set_mem st m1).
    assert (R : mem (remove_list st1 bp)
                = (if negb (head =? NULL) then PUT (PUT m1 slot head) head NULL
                   else PUT m1 slot head)).
    { rewrite remove_list_first by exact W2. cbn [mem heap_listp set_mem st1].
      rewrite W4, Hcls, Eslot, W3.
      assert (S1 : SUCC (PUT m1 slot head) bp = head).
      { unfold SUCC, SUCC_PTR. rewrite GET_PUT_ne by addr_lia. exact W3. }
      assert (P1 : PRED (PUT m1 slot head) bp = NULL).
      { unfold PRED, PRED_PTR. rewrite GET_PUT_ne by addr_lia. exact W2. }
      rewrite S1, P1. reflexivity. }
    rewrite R.
    assert (Hx : forall x, In x l -> x + WSIZE <> head /\ x + WSIZE <> slot).
    { intros x Hx. destruct (Hl x Hx) as (X1 & X2 & X3 & X4).
      unfold aligned8 in *. addr_lia. }
    destruct (head =? NULL) eqn:E; cbn [negb].
    + rewrite GET_PUT_eq, Hhr. eapply chain_frame; [|exact Hchain].
      intros x Hin. destruct (Hx x Hin). unfold SUCC, SUCC_PTR.
      rewrite GET_PUT_ne by congruence. apply W5, Hin.
    + assert (slot < head) by (destruct Hhead as [?|Hin];
        [unfold NULL in *; lia | apply Hl, Hin]).
      rewrite GET_PUT_ne by lia. rewrite GET_PUT_eq, Hhr.
      eapply chain_frame; [|exact Hchain].
      intros x Hin. destruct (Hx x Hin). unfold SUCC, SUCC_PTR.
      do 2 rewrite GET_PUT_ne by congruence. apply W5, Hin.
Qed.

Lemma insert_then_remove_witness :
  let st := unwrap run_two_frees_first in
  let slot := heap_listp st + snd (class_of 24) * WSIZE in
  exists st',
    insert_list 64 st 1104 24 = Ret st' /\
    chain (mem st') (GET (mem st') slot) [1104; 1072] /\
    chain (mem (remove_list st' 1104)) (GET (mem (remove_list st' 1104)) slot) [1072].
Proof.
  apply (insert_then_remove_round_trip 64 (unwrap run_two_frees_first) 1104 24 [1072]).
  - apply Nat.lt_0_succ.
  - by_eval.
  - by_eval.
  - vm_compute. repeat split; first [reflexivity | discriminate].
  - intros x [<-|[]]. vm_compute. repeat split; first [reflexivity | discriminate].
  - by_eval.
  - by_eval.
  - by_eval.
Defined.

(** * Extending the heap *)

Lemma extend_heap_after_allocated fuel st size nodes :
  let m := mem st in
  let brk := mem_brk st in
  let sz := ALIGN size in
  let slot := heap_listp st + snd (class_of sz) * WSIZE in
  16 <= sz ->
  brk + sz <= mem_max_addr st ->
  0 < brk ->
  0 < GET_SIZE m (brk - DSIZE) ->
  GET_ALLOC m (HDRP (PREV_BLKP m brk)) = 1 ->
  heap_listp st + MAXCLASS * WSIZE <= HDRP brk ->
  chain m (GET m slot) nodes ->
  (forall x, In x nodes -> x + 16 <= brk) ->
  (length nodes < fuel)%nat ->
  exists st',
    extend_heap fuel st size = Ret (st', brk) /\
    mem_brk st' = brk + sz /\
    heap_listp st' = heap_listp st /\
    tagged (mem st') brk sz 0 /\
    GET (mem st') (HDRP (brk + sz)) = PACK 0 1 /\
    (forall a, a < HDRP brk -> (forall x, In x nodes -> a <> x /\ a <> x + WSIZE) ->
       a <> slot -> GET (mem st') a = GET m a).
Proof.
  intros m brk sz slot Hsz Hroom Hbrk Hp Hpa Htab Hchain Hout Hfuel.
  assert (Em : mem st = m) by reflexivity.
  assert (Ebrk : mem_brk st = brk) by reflexivity.
  assert (Esz : ALIGN size = sz) by reflexivity.
  assert (Eslot : heap_listp st + snd (class_of sz) * WSIZE = slot) by reflexivity.
  clearbody slot sz brk m.
  assert (Hs8 : sz mod 8 = 0) by (rewrite <- Esz, ALIGN_eq; dlia).
  assert (Hsr : 0 <= sz < 2 ^ 32) by (rewrite <- Esz, ALIGN_eq; dlia).
  pose proof (GET_SIZE_range m (brk - DSIZE)) as Hpr.
  pose proof (class_of_index sz) as Hidx.
  assert (Hcp : slot < HDRP brk) by (rewrite <- Eslot; addr_lia).
  unfold extend_heap, mem_sbrk. rewrite Esz, Ebrk.
  destruct (brk + sz <=? mem_max_addr st) eqn:E; [|lia].
  cbn [mem heap_listp mem_brk mem_max_addr set_mem]. rewrite Em.
  unfold FTRP, NEXT_BLKP. fold (HDRP brk). repeat size_step.
  set (m3 := PUT _ (HDRP (brk + sz)) _).
  assert (Hfr : forall a, a < HDRP brk -> GET m3 a = GET m a).
  { intros a Ha. unfold m3. repeat word_step. reflexivity. }
  rewrite coalesce_between_allocated; cbn [mem set_mem].
  2: { unfold PREV_BLKP in *. rewrite (GET_SIZE_ext m) by (apply Hfr; addr_lia).
       rewrite (GET_ALLOC_ext m) by (apply Hfr; addr_lia). exact Hpa. }
  2: { unfold NEXT_BLKP. fold (HDRP brk). unfold m3. repeat size_step.
       repeat alloc_step. reflexivity. }
  assert (Hch3 : chain m3 (GET m3 slot) nodes).
  { rewrite Hfr by lia. eapply chain_frame; [|exact Hchain].
    intros x Hx. unfold SUCC, SUCC_PTR. specialize (Hout x Hx).
    apply Hfr. addr_lia. }
  match goal with |- context [insert_list fuel ?s brk sz] =>
    destruct (insert_list_chain fuel s brk sz nodes)
      as (last & cur & Hins & Hcur & Hlast) end.
  { cbn [heap_listp mem set_mem]. rewrite Eslot. exact Hch3. }
  { exact Hfuel. }
  cbn [heap_listp mem set_mem] in Hins. rewrite Eslot in Hins.
  rewrite Hins. cbn [mbind result_mbind result_bind].
  eexists. split; [reflexivity|]. cbn [mem heap_listp mem_brk set_mem].
  split; [reflexivity|]. split; [reflexivity|].
  assert (Keep : forall a, HDRP brk <= a <= HDRP (brk + sz) ->
            a <> brk -> a <> brk + WSIZE ->
            GET (link_in m3 slot brk last cur) a = GET m3 a).
  { intros a A1 A2 A3.
    apply (link_in_keeps m3 slot brk last cur nodes (HDRP brk) (HDRP (brk + sz)));
      try assumption.
    intros x Hx. specialize (Hout x Hx). left. addr_lia. }
  split; [|split].
  - split; (rewrite Keep by addr_lia); unfold m3; repeat get_step; reflexivity.
  - rewrite Keep by addr_lia. unfold m3. rewrite GET_PUT_eq. reflexivity.
  - intros a Ha Hx Hs. rewrite link_in_frame.
    + apply Hfr, Ha.
    + addr_lia.
    + addr_lia.
    + intros Hn. destruct Hcur as [?|Hin]; [contradiction | apply Hx, Hin].
    + intros Hn. destruct Hlast as [?|Hin]; [contradiction | apply Hx, Hin].
    + intros _. exact Hs.
Qed.

(** X24: extending a heap whose last block is allocated.  If the memory
    system has room, [extend_heap] returns the old break as the pointer of
    a new free block of [ALIGN(size)] bytes, tagged in header and footer,
    followed by a new epilogue header in the last word below the new
    break; below the old epilogue only list links and the class slot can
    have changed. *)
Theorem extend_heap_appends_free_block
    (fuel : nat) (st : state) (size : Z) (nodes : list Z) :
  let m := mem st in
  let brk := mem_brk st in
  let sz := ALIGN size in
  let slot := heap_listp st + snd (class_of sz) * WSIZE in
  16 <= sz ->
  brk + sz <= mem_max_addr st ->
  0 < brk ->
  0 < GET_SIZE m (brk - DSIZE) ->
  GET_ALLOC m (HDRP (PREV_BLKP m brk)) = 1 ->
  heap_listp st + MAXCLASS * WSIZE <= HDRP brk ->
  chain m (GET m slot) nodes ->
  (forall x, In x nodes -> x + 16 <= brk) ->
  (length nodes < fuel)%nat ->
  exists st',
    extend_heap fuel st size = Ret (st', brk) /\
    mem_brk st' = brk + sz /\
    heap_listp st' = heap_listp st /\
    tagged (mem st') brk sz 0 /\
    GET (mem st') (HDRP (brk + sz)) = PACK 0 1 /\
    (forall a, a < HDRP brk -> (forall x, In x nodes -> a <> x /\ a <> x + WSIZE) ->
       a <> slot -> GET (mem st') a = GET m a).
Proof. apply extend_heap_after_allocated. Qed.

Lemma extend_heap_appends_witness :
  exists st',
    extend_heap 64 heap_full 4096 = Ret (st', mem_brk heap_full) /\
    mem_brk st' = mem_brk heap_full + ALIGN 4096 /\
    tagged (mem st') (mem_brk heap_full) (ALIGN 4096) 0.
Proof.
  destruct (extend_heap_appends_free_block 64 heap_full 4096 [])
    as (st' & H1 & H2 & _ & H3 & _);
    [ by_eval | by_eval | by_eval | by_eval | by_eval | by_eval | by_eval
    | intros x [] | apply Nat.lt_0_succ | ].
  exists st'. split; [exact H1|]. split; [exact H2 | exact H3].
Defined.

(** X25: growing the last block of the heap in place.  When the block of
    [ptr] ends at the epilogue and is too small, [mm_realloc] extends the
    heap by [MAX(adjusted size - block size, CHUNKSIZE)] bytes and gives
    the whole extension to the block: it returns [ptr], the block is
    tagged allocated with its old size plus the extension, and the break
    is higher by the extension. *)
Theorem realloc_grows_last_block
    (fuel : nat) (st : state) (ptr size : Z) (nodes : list Z) :
  let m := mem st in
  let cur := GET_SIZE m (HDRP ptr) in
  let ext := MAX (adjust size - cur) CHUNKSIZE in
  let slot := heap_listp st + snd (class_of ext) * WSIZE in
  size <> 0 ->
  tagged m ptr cur 1 -> 16 <= cur ->
  ptr + cur = mem_brk st ->
  GET m (HDRP (mem_brk st)) = PACK 0 1 ->
  cur < adjust size -> adjust size - cur < 2 ^ 31 ->
  0 < ptr -> mem_max_addr st <= 2 ^ 32 ->
  mem_brk st + ext <= mem_max_addr st ->
  heap_listp st + MAXCLASS * WSIZE <= HDRP (mem_brk st) ->
  chain m (GET m slot) nodes ->
  (forall x, In x nodes -> x + 16 <= mem_brk st) ->
  (length nodes < fuel)%nat ->
  exists st',
    mm_realloc fuel st ptr size = Ret (st', ptr) /\
    tagged (mem st') ptr (cur + ext) 1 /\
    mem_brk st' = mem_brk st + ext.
Proof.
  intros m cur ext slot Hs [Th Tf] Hcur Hend Hepi Hsmall Hint Hptr Hmax Hroom Htab
    Hchain Hout Hfuel.
  assert (Em : mem st = m) by reflexivity.
  assert (Ecur : GET_SIZE m (HDRP ptr) = cur) by reflexivity.
  assert (Eext : MAX (adjust size - cur) CHUNKSIZE = ext) by reflexivity.
  assert (Eslot : heap_listp st + snd (class_of ext) * WSIZE = slot) by reflexivity.
  clearbody slot ext cur m.
  pose proof (adjust_nonneg size) as Ha. pose proof (adjust_mod8 size) as Ha8.
  pose proof (GET_SIZE_range m (HDRP ptr)) as Hc.
  pose proof (GET_SIZE_mod8 m (HDRP ptr)) as Hc8. rewrite Ecur in Hc, Hc8.
  change (2 ^ 31) with 2147483648 in *. change (2 ^ 32) with 4294967296 in *.
  assert (Hext : ext = adjust size - cur /\ 4096 < ext
                 \/ ext = 4096 /\ adjust size - cur <= 4096).
  { rewrite <- Eext. unfold MAX. change CHUNKSIZE with 4096.
    destruct (4096 <? adjust size - cur) eqn:E; [left; lia | right; lia]. }
  assert (Hext8 : ext mod 8 = 0) by (destruct Hext as [[-> _]| [-> _]]; dlia).
  assert (Hextr : 4096 <= ext < 2147483648 /\ adjust size - cur <= ext)
    by (destruct Hext as [[-> ?]| [-> ?]]; lia).
  assert (Hal : ALIGN ext = ext).
  { rewrite ALIGN_eq. rewrite w32_id by (change (2 ^ 32) with 4294967296; lia). dlia. }
  assert (Hepi_sz : GET_SIZE m (HDRP (mem_brk st)) = 0)
    by (rewrite GET_SIZE_eq, Hepi; reflexivity).
  assert (Hepi_al : GET_ALLOC m (HDRP (mem_brk st)) = 1)
    by (unfold GET_ALLOC; rewrite Hepi; reflexivity).
  assert (Hfoot : GET_SIZE m (mem_brk st - DSIZE) = cur).
  { rewrite <- Hend. replace (ptr + cur - DSIZE) with (ptr + cur - DSIZE) by lia.
    apply (GET_SIZE_of_tag m _ cur 1); [exact Tf | | exact Hc8 | by right].
    change (2 ^ 32) with 4294967296. lia. }
  assert (Hhead_al : GET_ALLOC m (HDRP ptr) = 1).
  { unfold GET_ALLOC. rewrite Th, land_1, PACK_1 by lia. dlia. }
  (* the extension *)
  pose proof (extend_heap_after_allocated fuel st ext nodes) as X.
  cbv zeta in X. rewrite Hal, Em, Eslot in X.
  assert (Hpa : GET_ALLOC m (HDRP (PREV_BLKP m (mem_brk st))) = 1).
  { unfold PREV_BLKP. rewrite Hfoot.
    replace (mem_brk st - cur) with ptr by lia. exact Hhead_al. }
  destruct X as (st1 & Hx & Hb1 & _); try assumption; try lia.
  (* the call *)
  unfold mm_realloc. destruct (size =? 0) eqn:E0; [lia|]. cbv zeta.
  rewrite Em, Ecur.
  assert (R1 : s32 (cur - adjust size) = cur - adjust size).
  { unfold s32.
    assert (w32 (cur - adjust size) = cur - adjust size + 4294967296) as -> by dlia.
    change (2 ^ 31) with 2147483648. change (2 ^ 32) with 4294967296.
    destruct (cur - adjust size + 4294967296 <? 2147483648) eqn:E; lia. }
  rewrite R1. destruct (0 <=? cur - adjust size) eqn:E1; [lia|].
  assert (Hnext : NEXT_BLKP m ptr = mem_brk st).
  { unfold NEXT_BLKP. fold (HDRP ptr). rewrite Ecur. exact Hend. }
  rewrite Hnext, Hepi_sz, Hepi_al.
  change ((1 =? 0) || (0 =? 0)) with true. cbv iota.
  replace (cur + 0 - adjust size) with (cur - adjust size) by lia. rewrite R1.
  destruct (cur - adjust size <? 0) eqn:E2; [|lia].
  replace (- (cur - adjust size)) with (adjust size - cur) by lia. rewrite Eext.
  rewrite (w32_id ext) by (change (2 ^ 32) with 4294967296; lia).
  rewrite Hx. cbn [mbind result_mbind result_bind].
  destruct (mem_brk st =? NULL) eqn:E3; [unfold NULL in *; lia|].
  cbn [mbind result_mbind result_bind]. cbv iota.
  assert (R2 : s32 (cur - adjust size + ext) = cur - adjust size + ext).
  { unfold s32. rewrite w32_id by (change (2 ^ 32) with 4294967296; lia).
    change (2 ^ 31) with 2147483648.
    destruct (cur - adjust size + ext <? 2147483648) eqn:E; lia. }
  rewrite R2.
  replace (w32 (adjust size + (cur - adjust size + ext))) with (cur + ext)
    by (rewrite w32_id; [lia | change (2 ^ 32) with 4294967296; lia]).
  assert (H8 : (cur + ext) mod 8 = 0) by dlia.
  assert (Hr : 0 <= cur + ext < 2 ^ 32) by (change (2 ^ 32) with 4294967296; lia).
  unfold FTRP. rewrite GET_SIZE_PUT_tag by auto.
  eexists. split; [reflexivity|]. cbn [mem mem_brk set_mem].
  split.
  - split; repeat get_step; reflexivity.
  - rewrite remove_list_brk. exact Hb1.
Qed.

Lemma realloc_grows_last_block_witness :
  exists st',
    mm_realloc 64 heap_full 1072 5000 = Ret (st', 1072) /\
    tagged (mem st') 1072
      (GET_SIZE (mem heap_full) (HDRP 1072)
       + MAX (adjust 5000 - GET_SIZE (mem heap_full) (HDRP 1072)) CHUNKSIZE) 1 /\
    mem_brk st' =
      mem_brk heap_full
      + MAX (adjust 5000 - GET_SIZE (mem heap_full) (HDRP 1072)) CHUNKSIZE.
Proof.
  apply (realloc_grows_last_block 64 heap_full 1072 5000 []);
    [ by_eval | by_eval | by_eval | by_eval | by_eval | by_eval | by_eval
    | by_eval | by_eval | by_eval | by_eval | by_eval
    | intros x [] | apply Nat.lt_0_succ ].
Defined.
